(** * go-chi-httplog-zap: a shallow embedding of the request-logging middleware

    The development follows [httplog] (the package of the repository) top
    down: the pieces of Go's [io], [bytes] and [strings] packages the code
    calls, a small model of the [zap] logger and of chi's response-writer
    wrapper, then the package itself ([MarshalLogObject] of the three log
    objects, the context helpers, the [zapLogEntry] methods and
    [ZapRequestLogger]), and finally the properties.

    Conventions.
    - A Go [[]byte] is a [list byte]; a Go [string] is a [string].
    - A Go [int] is a [Z]; no quantity of the package comes near 2^63 (the
      byte counters are bounded by what a [bytes.Buffer] holds in memory).
    - Go interfaces are type classes ([Reader]) and, where the code stores an
      interface value in a field ([http.Request.Body]), a package of a state
      with its instance ([ReadCloser]).
    - Pointers to [zapLogEntry] live in an explicit heap ([gmap loc _]);
      the context holds the pointer, so that what [LogEntrySetField] writes
      is what every other holder of the pointer reads. *)

From Stdlib Require Import ZArith Strings.Byte String Ascii.
From stdpp Require Import base list gmap strings.

Local Open Scope string_scope.
Local Open Scope list_scope.

(** ** Package [io] *)

(** [io.EOF] against every other error value. *)
Inductive error : Type :=
| EOF
| ErrOther (msg : string).

(** [io.Reader]. [Read r n] is [r.Read(p)] with [len(p) = n]: the bytes
    stored in [p[:n']], the error and the reader afterwards. The two laws
    are the part of the interface contract the package relies on:
    [Read] returns at most [len(p)] bytes, and the stream is finite, which
    [remaining] measures (a ghost bound on the number of further successful
    reads into a non-empty [p]). *)
Class Reader (R : Type) : Type := {
  Read : R -> nat -> list byte * option error * R;
  remaining : R -> nat;
  Read_len : forall r n d e r', Read r n = (d, e, r') -> length d <= n;
  Read_progress : forall r n d r',
    0 < n -> Read r n = (d, None, r') -> remaining r' < remaining r
}.

(** ** Package [bytes] *)

(** [bytes.Buffer]: [unread] is [b.buf[b.off:]]. *)
Record Buffer : Type := mkBuffer { unread : list byte }.

(** [bytes.NewBuffer(make([]byte, 0))] *)
Definition NewBuffer : Buffer := mkBuffer [].

(** [Buffer.Write]: appends, [err] is always nil. *)
Definition Buffer_Write (b : Buffer) (p : list byte)
  : nat * option error * Buffer :=
  (length p, None, mkBuffer (unread b ++ p)).

(** [Buffer.Read]: an empty buffer returns [0, io.EOF] (and [0, nil] for
    an empty [p]); otherwise [copy(p, b.buf[b.off:])]. *)
Definition Buffer_Read (b : Buffer) (n : nat)
  : list byte * option error * Buffer :=
  match unread b with
  | [] => ([], if Nat.eqb n 0 then None else Some EOF, b)
  | _ :: _ => (take n (unread b), None, mkBuffer (drop n (unread b)))
  end.

Lemma Buffer_Read_len (b : Buffer) n d e b' :
  Buffer_Read b n = (d, e, b') -> length d <= n.
Proof.
  unfold Buffer_Read. destruct (unread b) as [|x l]; intros [= <- _ _].
  - simpl. lia.
  - rewrite length_take. lia.
Qed.

Lemma Buffer_Read_progress (b : Buffer) n d b' :
  0 < n -> Buffer_Read b n = (d, None, b') ->
  length (unread b') < length (unread b).
Proof.
  unfold Buffer_Read. intros Hn. destruct (unread b) as [|x l] eqn:E.
  - destruct n; [lia|]. simpl. discriminate.
  - intros [= _ <-]. cbn [unread]. rewrite length_drop. simpl. lia.
Qed.

#[export] Instance Buffer_Reader : Reader Buffer := {|
  Read := Buffer_Read;
  remaining b := length (unread b);
  Read_len := Buffer_Read_len;
  Read_progress := Buffer_Read_progress
|}.

(** ** [io.TeeReader] *)

(** [io.teeReader{r, w}]; the writer of the package is always a
    [bytes.Buffer]. *)
Record teeReader (R : Type) : Type := mkTee { tee_r : R; tee_w : Buffer }.
Arguments mkTee {R} _ _.
Arguments tee_r {R} _.
Arguments tee_w {R} _.

(** [teeReader.Read]:
<<
  n, err = t.r.Read(p)
  if n > 0 { if n, err := t.w.Write(p[:n]); err != nil { return n, err } }
  return
>> *)
Definition teeReader_Read {R} `{Reader R} (t : teeReader R) (n : nat)
  : list byte * option error * teeReader R :=
  let '(d, err, r') := Read (tee_r t) n in
  if Nat.ltb 0 (length d) then
    let '(n', werr, w') := Buffer_Write (tee_w t) d in
    match werr with
    | Some e => (take n' d, Some e, mkTee r' w')
    | None => (d, err, mkTee r' w')
    end
  else (d, err, mkTee r' (tee_w t)).

Lemma teeReader_Read_eq {R} `{Reader R} (t : teeReader R) n :
  teeReader_Read t n =
  let '(d, err, r') := Read (tee_r t) n in
  (d, err, mkTee r' (mkBuffer (unread (tee_w t) ++ d))).
Proof.
  unfold teeReader_Read. destruct (Read (tee_r t) n) as [[d err] r'].
  destruct (Nat.ltb_spec 0 (length d)) as [Hd|Hd]; cbn.
  - reflexivity.
  - destruct d; [|simpl in Hd; lia]. rewrite app_nil_r.
    destruct (tee_w t); reflexivity.
Qed.

Lemma teeReader_Read_len {R} `{Reader R} (t : teeReader R) n d e t' :
  teeReader_Read t n = (d, e, t') -> length d <= n.
Proof.
  rewrite teeReader_Read_eq.
  destruct (Read (tee_r t) n) as [[d0 e0] r0] eqn:E. intros [= <- _ _].
  eapply Read_len; eassumption.
Qed.

Lemma teeReader_Read_progress {R} `{Reader R} (t : teeReader R) n d t' :
  0 < n -> teeReader_Read t n = (d, None, t') ->
  remaining (tee_r t') < remaining (tee_r t).
Proof.
  intros Hn. rewrite teeReader_Read_eq.
  destruct (Read (tee_r t) n) as [[d0 e0] r0] eqn:E. intros [= -> -> <-].
  cbn [tee_r]. eapply Read_progress; eassumption.
Qed.

#[export] Instance teeReader_Reader {R} `{Reader R} : Reader (teeReader R) := {|
  Read := teeReader_Read;
  remaining t := remaining (tee_r t);
  Read_len := teeReader_Read_len;
  Read_progress := teeReader_Read_progress
|}.

(** [io.ReadCloser] as the code holds it: an interface value, that is a
    state together with the method set of its dynamic type. [Close] has no
    part here: the package calls it once, deferred, on the original body and
    discards its result. *)
Record ReadCloser : Type := mkReadCloser {
  rc_type : Type;
  rc_Reader : Reader rc_type;
  rc_state : rc_type
}.
#[export] Existing Instance rc_Reader.

(** [io.NopCloser(b)] for a [bytes.Buffer] [b]. *)
Definition NopCloser (b : Buffer) : ReadCloser := mkReadCloser Buffer _ b.

(** A scripted stream, the shape of a request body arriving from the
    network: each [Read] returns the next chunk (or the part of it that
    fits [p], keeping the rest), and once the chunks are used up every
    [Read] returns [0, final]. *)
Record chunkReader : Type := mkChunks {
  chunks : list (list byte);
  final : error
}.

Definition chunkReader_Read (r : chunkReader) (n : nat)
  : list byte * option error * chunkReader :=
  match chunks r with
  | [] => ([], Some (final r), r)
  | c :: cs =>
      if Nat.leb (length c) n then (c, None, mkChunks cs (final r))
      else (take n c, None, mkChunks (drop n c :: cs) (final r))
  end.

Fixpoint chunks_weight (cs : list (list byte)) : nat :=
  match cs with
  | [] => 0
  | c :: cs => S (length c) + chunks_weight cs
  end.

Lemma chunkReader_Read_len (r : chunkReader) n d e r' :
  chunkReader_Read r n = (d, e, r') -> length d <= n.
Proof.
  unfold chunkReader_Read. destruct (chunks r) as [|c cs].
  - intros [= <- _ _]. simpl. lia.
  - destruct (Nat.leb_spec (length c) n); intros [= <- _ _]; [lia|].
    rewrite length_take. lia.
Qed.

Lemma chunkReader_Read_progress (r : chunkReader) n d r' :
  0 < n -> chunkReader_Read r n = (d, None, r') ->
  chunks_weight (chunks r') < chunks_weight (chunks r).
Proof.
  unfold chunkReader_Read. intros Hn. destruct (chunks r) as [|c cs].
  - discriminate.
  - destruct (Nat.leb_spec (length c) n); intros [= _ <-]; cbn.
    + lia.
    + rewrite length_drop. lia.
Qed.

#[export] Instance chunkReader_Reader : Reader chunkReader := {|
  Read := chunkReader_Read;
  remaining r := chunks_weight (chunks r);
  Read_len := chunkReader_Read_len;
  Read_progress := chunkReader_Read_progress
|}.

(** ** Instances to run the model on *)

(** [strings.ToLower] on ASCII strings: the letters A to Z are moved to a to
    z and every other byte is kept. *)
Definition ascii_ToLower (c : ascii) : ascii :=
  let n := nat_of_ascii c in
  if Nat.leb 65 n && Nat.leb n 90 then ascii_of_nat (n + 32) else c.

Fixpoint ToLower_ascii (s : string) : string :=
  match s with
  | EmptyString => EmptyString
  | String c s => String (ascii_ToLower c) (ToLower_ascii s)
  end.

(** A capacity policy for [append]: one more than twice the capacity. *)
Definition grow_double (c : nat) : nat := 2 * c + 1.

Lemma grow_double_gt (c : nat) : c < grow_double c.
Proof. unfold grow_double. lia. Qed.

Section Httplog.

(** What [append] makes of a full slice of capacity [c] ("let append pick
    how much" in [io.ReadAll]): the new capacity, larger than [c]. *)
Variable grow : nat -> nat.
Hypothesis grow_gt : forall c, c < grow c.

(** [strings.ToLower]; its Unicode tables are not part of the package. *)
Variable ToLower : string -> string.

(** The values of Go's [interface{}] that reach [zap.Reflect] and
    [panic], with [fmt.Sprintf("%+v", v)]. *)
Variable any : Type.
Variable Sprintf_v : any -> string.

(** *** [io.ReadAll]
<<
  b := make([]byte, 0, 512)
  for {
    n, err := r.Read(b[len(b):cap(b)])
    b = b[:len(b)+n]
    if err != nil { if err == EOF { err = nil }; return b, err }
    if len(b) == cap(b) { b = append(b, 0)[:len(b)] }
  }
>>
    The loop is run on fuel; [remaining] bounds the fuel a reader needs
    ([readAllLoop_total]), so that [ReadAll] is a total function. *)
Fixpoint readAllLoop {R} `{Reader R} (fuel : nat) (r : R) (b : list byte)
  (cap : nat) : option (list byte * option error * R) :=
  match fuel with
  | 0 => None
  | S fuel =>
      let '(d, err, r') := Read r (cap - length b) in
      let b := b ++ d in
      match err with
      | Some EOF => Some (b, None, r')
      | Some e => Some (b, Some e, r')
      | None =>
          readAllLoop fuel r' b (if Nat.eqb (length b) cap then grow cap else cap)
      end
  end.

Definition ReadAll {R} `{Reader R} (r : R) : list byte * option error * R :=
  match readAllLoop (S (remaining r)) r [] 512 with
  | Some res => res
  | None => ([], None, r)
  end.

(** What [io.ReadAll] returns for the error that ends a stream: nil for
    [io.EOF]. *)
Definition error_of_final (e : error) : option error :=
  match e with EOF => None | _ => Some e end.

(** ** Package [strings] and [fmt] *)

(** [strings.Join]: nothing for no element, the element alone for one,
    otherwise the first element followed by [sep] and the next, in turn. *)
Definition Join (elems : list string) (sep : string) : string :=
  match elems with
  | [] => ""
  | [e] => e
  | e :: rest => fold_left (fun b s => b +:+ sep +:+ s) rest e
  end.

(** [fmt.Sprintf("[%s]", s)] *)
Definition Sprintf_brackets (s : string) : string := "[" +:+ s +:+ "]".

(** ** Package [zap] (the logging sink) *)

(** [zapcore.Level] *)
Definition DebugLevel : Z := -1.
Definition InfoLevel : Z := 0.
Definition WarnLevel : Z := 1.
Definition ErrorLevel : Z := 2.
Definition DPanicLevel : Z := 3.
Definition PanicLevel : Z := 4.
Definition FatalLevel : Z := 5.

(** [zapcore.Field] once encoded: the key and the value an encoder was
    given. An object is the list of the calls its marshaler made. *)
#[warnings="-register-all"]
Inductive Field : Type :=
| FString (key val : string)
| FInt (key : string) (val : Z)
| FDuration (key : string) (val : Z)
| FObject (key : string) (val : list Field)
| FReflect (key : string) (val : any).

Definition zap_String (key val : string) : Field := FString key val.
Definition zap_Reflect (key : string) (val : any) : Field := FReflect key val.

(** [zapcore.ObjectEncoder]: the fields added so far, in the order of the
    calls. *)
Definition ObjectEncoder : Type := list Field.
Definition AddString (enc : ObjectEncoder) (k v : string) : ObjectEncoder :=
  enc ++ [FString k v].
Definition AddInt (enc : ObjectEncoder) (k : string) (v : Z) : ObjectEncoder :=
  enc ++ [FInt k v].
Definition AddDuration (enc : ObjectEncoder) (k : string) (v : Z)
  : ObjectEncoder := enc ++ [FDuration k v].

(** [zapcore.Core]: the core of [zap.NewNop], which drops everything, or a
    core that writes to the sink and carries the fields [With] gave it. The
    sink is what the logger hands its records to; what a level filter or a
    sampler of the sink keeps of them is the sink's business, not the
    package's. *)
Inductive Core : Type :=
| NopCore
| ioCore (context : list Field).

(** [zap.Logger]: its core, and the level from which it attaches a stack
    trace of its own to a record ([zap.AddStacktrace]). *)
Record Logger : Type := mkLogger { core : Core; addStack : Z }.

(** [zap.NewNop()] *)
Definition NewNop : Logger := mkLogger NopCore (FatalLevel + 1).

(** [zap.SugaredLogger] *)
Record SugaredLogger : Type := mkSugared { base : Logger }.
Definition Sugar (l : Logger) : SugaredLogger := mkSugared l.

(** A record as the sink receives it: level, message, the fields of the
    logger followed by those of the call, and whether zap attached its own
    stack trace. *)
Record LogRecord : Type := mkRecord {
  Level : Z;
  Message : string;
  Fields : list Field;
  Stacktrace : bool
}.

(** [logger.With(fields...)]: a new logger, the receiver is left as it is;
    the no-op core ignores the fields. *)
Definition With (l : Logger) (fields : list Field) : Logger :=
  match core l with
  | NopCore => l
  | ioCore ctx => mkLogger (ioCore (ctx ++ fields)) (addStack l)
  end.

(** [logger.With(zap.Object(key, m))]: a core that writes encodes the
    fields at once, that is, runs [m.MarshalLogObject] here, with whatever
    that does to the state [S] the marshaler points to; the no-op core never
    calls the marshaler. *)
Definition With_Object {S : Type} (l : Logger) (key : string)
  (m : S -> ObjectEncoder -> ObjectEncoder * S) (s : S) : Logger * S :=
  match core l with
  | NopCore => (l, s)
  | ioCore ctx =>
      let '(o, s') := m s [] in
      (mkLogger (ioCore (ctx ++ [FObject key o])) (addStack l), s')
  end.

(** [logger.WithOptions(zap.AddStacktrace(lvl))] *)
Definition WithOptions_AddStacktrace (l : Logger) (lvl : Z) : Logger :=
  mkLogger (core l) lvl.

(** [logger.Info], [logger.Warn], [logger.Error]: one record to the sink,
    with zap's own stack trace when the level reaches [addStack]. *)
Definition Logger_log (l : Logger) (lvl : Z) (msg : string)
  (fields : list Field) (sink : list LogRecord) : list LogRecord :=
  match core l with
  | NopCore => sink
  | ioCore ctx =>
      sink ++ [mkRecord lvl msg (ctx ++ fields) (Z.leb (addStack l) lvl)]
  end.

(** ** Package [net/http] *)

(** [http.Header], a [map[string][]string], as its entries in the order a
    [range] visits them (any order: Go leaves it unspecified). *)
Definition http_Header : Type := list (string * list string).

(** The value under a context key of chi's middleware. *)
Definition loc : Type := nat.
Inductive ctxValue : Type :=
| NoValue                           (* [ctx.Value(key) == nil] *)
| OtherValue                        (* a value of another dynamic type *)
| EntryPtr (p : option loc).        (* a [zapLogEntry] pointer, nil or not *)

(** [context.Context], for the two keys the package reads:
    [middleware.RequestIDKey] (a string, when set) and
    [middleware.LogEntryCtxKey]. *)
Record Context : Type := mkContext {
  ctx_RequestID : option string;
  ctx_LogEntry : ctxValue
}.

(** [http.Request], the fields the package reads. [TLS] is [r.TLS != nil]. *)
Record Request : Type := mkRequest {
  Method : string;
  TLS : bool;
  Host : string;
  RequestURI : string;
  Proto : string;
  ProtoMajor : Z;
  RemoteAddr : string;
  Header : http_Header;
  Body : ReadCloser;
  Ctx : Context
}.

Definition set_Body (r : Request) (b : ReadCloser) : Request :=
  mkRequest (Method r) (TLS r) (Host r) (RequestURI r) (Proto r)
    (ProtoMajor r) (RemoteAddr r) (Header r) b (Ctx r).

(** [r.WithContext(ctx)]: a shallow copy of [r] with the context changed. *)
Definition WithContext (r : Request) (c : Context) : Request :=
  mkRequest (Method r) (TLS r) (Host r) (RequestURI r) (Proto r)
    (ProtoMajor r) (RemoteAddr r) (Header r) (Body r) c.

(** The server's [http.ResponseWriter]: the header map, the status line
    sent (if any) and the body bytes sent to the client. *)
Record ResponseWriter : Type := mkResponseWriter {
  rw_Header : http_Header;
  rw_status : option Z;
  rw_sent : list byte
}.

Definition ResponseWriter_WriteHeader (w : ResponseWriter) (code : Z)
  : ResponseWriter :=
  match rw_status w with
  | Some _ => w
  | None => mkResponseWriter (rw_Header w) (Some code) (rw_sent w)
  end.

(** [w.Write(buf)]; the connection takes [accepted] bytes of [buf] (all of
    them unless it fails), and the call returns how many it took. *)
Definition ResponseWriter_Write (w : ResponseWriter) (buf : list byte)
  (accepted : nat) : nat * option error * ResponseWriter :=
  let w := ResponseWriter_WriteHeader w 200 in
  let n := Nat.min accepted (length buf) in
  (n, if Nat.ltb n (length buf) then Some (ErrOther "short write") else None,
   mkResponseWriter (rw_Header w) (rw_status w) (rw_sent w ++ take n buf)).

(** ** Package [chi/middleware] *)

(** [middleware.GetReqID] *)
Definition GetReqID (c : Context) : string :=
  match ctx_RequestID c with
  | Some id => id
  | None => ""
  end.

(** [middleware.basicWriter] of chi v5.0.7 (the version the comments of
    the package cite), which every wrapper [NewWrapResponseWriter] returns
    embeds, with the methods the handlers below call: [WriteHeader], [Write]
    and [Header]; [Flush], [Hijack] and [Push] of the larger wrappers are
    left out, [ReadFrom] of [httpFancyWriter] comes further down. [tee] is
    the buffer given to [Tee]: the buffer is shared with the caller of
    [Tee], who reads it through this field. *)
Record basicWriter : Type := mkBasicWriter {
  bw_ResponseWriter : ResponseWriter;
  wroteHeader : bool;
  code : Z;
  bytes : Z;
  tee : option Buffer
}.

Definition NewWrapResponseWriter (w : ResponseWriter) (protoMajor : Z)
  : basicWriter := mkBasicWriter w false 0 0 None.

Definition Tee (b : basicWriter) (w : Buffer) : basicWriter :=
  mkBasicWriter (bw_ResponseWriter b) (wroteHeader b) (code b) (bytes b)
    (Some w).

(** [basicWriter.WriteHeader]: the first call sets the code.
<<
  if !b.wroteHeader {
    b.code = code
    b.wroteHeader = true
    b.ResponseWriter.WriteHeader(code)
  }
>> *)
Definition basicWriter_WriteHeader (b : basicWriter) (c : Z) : basicWriter :=
  if wroteHeader b then b
  else mkBasicWriter (ResponseWriter_WriteHeader (bw_ResponseWriter b) c)
         true c (bytes b) (tee b).

(** [if !b.wroteHeader { b.WriteHeader(http.StatusOK) }] *)
Definition maybeWriteHeader (b : basicWriter) : basicWriter :=
  if wroteHeader b then b else basicWriter_WriteHeader b 200.

(** [basicWriter.Write]:
<<
  b.maybeWriteHeader()
  n, err := b.ResponseWriter.Write(buf)
  if b.tee != nil {
    _, err2 := b.tee.Write(buf[:n])
    if err == nil { err = err2 }
  }
  b.bytes += n
  return n, err
>> *)
Definition basicWriter_Write (b : basicWriter) (buf : list byte)
  (accepted : nat) : nat * option error * basicWriter :=
  let b := maybeWriteHeader b in
  let '(n, err, w) := ResponseWriter_Write (bw_ResponseWriter b) buf accepted in
  let '(err, t) :=
    match tee b with
    | Some t =>
        let '(_, err2, t') := Buffer_Write t (take n buf) in
        (match err with None => err2 | Some _ => err end, Some t')
    | None => (err, None)
    end in
  (n, err, mkBasicWriter w (wroteHeader b) (code b) (bytes b + Z.of_nat n) t).

(** [Status()] returns [b.code]: in the words of chi's interface, "the
    HTTP status of the request, or 0 if one has not yet been sent". *)
Definition Status (b : basicWriter) : Z := code b.
Definition BytesWritten (b : basicWriter) : Z := bytes b.
Definition basicWriter_Header (b : basicWriter) : http_Header :=
  rw_Header (bw_ResponseWriter b).

(** The handler changing the map [w.Header()] returns. *)
Definition basicWriter_setHeader (b : basicWriter) (h : http_Header)
  : basicWriter :=
  mkBasicWriter
    (mkResponseWriter h (rw_status (bw_ResponseWriter b))
       (rw_sent (bw_ResponseWriter b)))
    (wroteHeader b) (code b) (bytes b) (tee b).

(** ** Package [httplog] *)

(** *** [httpHeaderLog.MarshalLogObject] *)

Definition maskedString : string := "***".

(** One turn of the loop [for k, v := range *h.Header]. *)
Definition httpHeaderLog_step (enc : ObjectEncoder) (kv : string * list string)
  : ObjectEncoder :=
  let '(k, v) := kv in
  let k := ToLower k in
  if (String.eqb k "authorization" || String.eqb k "cookie"
      || String.eqb k "set-cookie") && negb (Nat.eqb (length v) 0)
  then AddString enc k maskedString
  else
    match v with
    | [] => enc
    | [v0] => AddString enc k v0
    | _ => AddString enc k (Sprintf_brackets (Join v "], ["))
    end.

Definition httpHeaderLog_MarshalLogObject (h : http_Header)
  (enc : ObjectEncoder) : ObjectEncoder :=
  fold_left httpHeaderLog_step h enc.

(** [enc.AddObject(key, m)] for the header marshaler. *)
Definition AddObject_header (enc : ObjectEncoder) (key : string)
  (h : http_Header) : ObjectEncoder :=
  enc ++ [FObject key (httpHeaderLog_MarshalLogObject h [])].

(** *** [httpRequestLog.MarshalLogObject]

    The request is reached through a pointer: the function returns the
    encoder and the request as it leaves it, with [Body] replaced. The
    deferred [r.Body.Close()] closes the body the function was called with. *)
Definition httpRequestLog_MarshalLogObject (r : Request) (enc : ObjectEncoder)
  : ObjectEncoder * Request :=
  let scheme := if TLS r then "https" else "http" in
  let enc := AddString enc "method" (Method r) in
  let enc := AddString enc "scheme" scheme in
  let enc := AddString enc "host" (Host r) in
  let enc := AddString enc "requestURI" (RequestURI r) in
  let enc := AddString enc "proto" (Proto r) in
  let enc := AddString enc "remoteAddr" (RemoteAddr r) in
  let enc :=
    if Nat.ltb 0 (length (Header r))
    then AddObject_header enc "header" (Header r) else enc in
  let reqID := GetReqID (Ctx r) in
  let enc := if String.eqb reqID "" then enc else AddString enc "reqId" reqID in
  let b := NewBuffer in
  let reader := mkTee (rc_state (Body r)) b in
  let '(bytes, _, reader) := ReadAll reader in
  let b := tee_w reader in
  let enc :=
    if negb (Nat.eqb (length bytes) 0)
    then AddString enc "body" (string_of_list_byte bytes) else enc in
  (enc, set_Body r (NopCloser b)).

(** *** [httpResponseLog.MarshalLogObject] *)

(** The dynamic type of the [extra interface{}] given to [Write]. *)
Inductive Extra : Type :=
| extraLogEntry (Body : list byte)
| otherExtra.

Record httpResponseLog : Type := mkResponseLog {
  resp_Status : Z;
  resp_Bytes : Z;
  resp_Header : http_Header;
  resp_Elapsed : Z;
  resp_Extra : Extra
}.

Definition httpResponseLog_MarshalLogObject (r : httpResponseLog)
  (enc : ObjectEncoder) : ObjectEncoder :=
  let enc := AddInt enc "status" (resp_Status r) in
  let enc := AddInt enc "bytes" (resp_Bytes r) in
  let enc := AddDuration enc "elapsed" (resp_Elapsed r) in
  let enc :=
    if Nat.ltb 0 (length (resp_Header r))
    then AddObject_header enc "header" (resp_Header r) else enc in
  match resp_Extra r with
  | extraLogEntry body =>
      if negb (Nat.eqb (length body) 0)
      then AddString enc "body" (string_of_list_byte body) else enc
  | otherExtra => enc
  end.

(** *** The log entry and the store *)

Record zapdLogFormatter : Type := mkFormatter { fmt_Logger : Logger }.
Record zapLogEntry : Type := mkEntry { entry_Logger : Logger }.

(** The entries allocated so far and the records the sink has received. *)
Record State : Type := mkState {
  heap : gmap loc zapLogEntry;
  sink : list LogRecord
}.

(** What a panic carries: a run-time error of Go or the value given to
    [panic]. *)
Inductive panicValue : Type :=
| RuntimeError (msg : string)
| UserPanic (v : any).

Inductive result (A : Type) : Type :=
| Ok (a : A)
| Panicked (v : panicValue).
Arguments Ok {A} _.
Arguments Panicked {A} _.

Definition nilDereference : panicValue :=
  RuntimeError "invalid memory address or nil pointer dereference".

(** [*p] for an entry pointer. Go has no pointer outside the heap; the
    model gives such a pointer the result of nil. *)
Definition deref (h : gmap loc zapLogEntry) (p : option loc)
  : result zapLogEntry :=
  match p with
  | None => Panicked nilDereference
  | Some p =>
      match h !! p with
      | Some e => Ok e
      | None => Panicked nilDereference
      end
  end.

(** [zapdLogFormatter.NewLogEntry]: the new entry, the request as the
    marshaler left it, and the state. *)
Definition NewLogEntry (l : zapdLogFormatter) (r : Request) (st : State)
  : loc * Request * State :=
  let '(logger, r) :=
    With_Object (fmt_Logger l) "httpRequest" httpRequestLog_MarshalLogObject r in
  let records := Logger_log logger InfoLevel "Request started" [] (sink st) in
  let entry := fresh (dom (heap st)) in
  (entry, r, mkState (<[entry := mkEntry logger]> (heap st)) records).

(** [zapLogEntry.Write] *)
Definition zapLogEntry_Write (l : zapLogEntry) (status bytes : Z)
  (header : http_Header) (elapsed : Z) (extra : Extra)
  (records : list LogRecord) : list LogRecord :=
  let httpResponseLog := mkResponseLog status bytes header elapsed extra in
  Logger_log (entry_Logger l) InfoLevel "Request complete"
    [FObject "httpResponse"
       (httpResponseLog_MarshalLogObject httpResponseLog [])]
    records.

(** [zapLogEntry.Panic] *)
Definition zapLogEntry_Panic (l : zapLogEntry) (v : any) (stack : list byte)
  (records : list LogRecord) : list LogRecord :=
  Logger_log (WithOptions_AddStacktrace (entry_Logger l) (FatalLevel + 1))
    ErrorLevel "Panic"
    [zap_String "panic" (Sprintf_v v);
     zap_String "stack" (string_of_list_byte stack)]
    records.

(** *** The context helpers *)

(** [RawLogEntry]:
<<
  entry, ok := ctx.Value(middleware.LogEntryCtxKey).( *zapLogEntry )
  if !ok || entry == nil { return *zap.NewNop() } else { return *entry.Logger }
>> *)
Definition RawLogEntry (ctx : Context) (h : gmap loc zapLogEntry)
  : result Logger :=
  match ctx_LogEntry ctx with
  | EntryPtr (Some p) =>
      match deref h (Some p) with
      | Ok e => Ok (entry_Logger e)
      | Panicked v => Panicked v
      end
  | EntryPtr None | NoValue | OtherValue => Ok NewNop
  end.

(** [LogEntry] *)
Definition LogEntry (ctx : Context) (h : gmap loc zapLogEntry)
  : result SugaredLogger :=
  match RawLogEntry ctx h with
  | Ok raw => Ok (Sugar raw)
  | Panicked v => Panicked v
  end.

(** [entry.Logger = entry.Logger.With(zap.Reflect(key, value))] through the
    pointer [p]. *)
Definition entry_extend (p : option loc) (key : string) (value : any)
  (h : gmap loc zapLogEntry) : result (gmap loc zapLogEntry) :=
  match p, deref h p with
  | Some l, Ok e =>
      Ok (<[l := mkEntry (With (entry_Logger e) [zap_Reflect key value])]> h)
  | _, Panicked v => Panicked v
  | None, Ok _ => Panicked nilDereference
  end.

(** [LogEntrySetField]: the type assertion succeeds for every
    [zapLogEntry] pointer, nil included. *)
Definition LogEntrySetField (ctx : Context) (key : string) (value : any)
  (h : gmap loc zapLogEntry) : result (gmap loc zapLogEntry) :=
  match ctx_LogEntry ctx with
  | EntryPtr p => entry_extend p key value h
  | NoValue | OtherValue => Ok h
  end.

(** [LogEntrySetFields]; [fields] is the map in the order [range] visits
    it. *)
Fixpoint entry_extend_all (p : option loc) (fields : list (string * any))
  (h : gmap loc zapLogEntry) : result (gmap loc zapLogEntry) :=
  match fields with
  | [] => Ok h
  | (k, v) :: fields =>
      match entry_extend p k v h with
      | Ok h => entry_extend_all p fields h
      | Panicked e => Panicked e
      end
  end.

Definition LogEntrySetFields (ctx : Context) (fields : list (string * any))
  (h : gmap loc zapLogEntry) : result (gmap loc zapLogEntry) :=
  match ctx_LogEntry ctx with
  | EntryPtr p => entry_extend_all p fields h
  | NoValue | OtherValue => Ok h
  end.

(** [middleware.WithLogEntry(r, entry)] *)
Definition WithLogEntry (r : Request) (entry : loc) : Request :=
  WithContext r (mkContext (ctx_RequestID (Ctx r)) (EntryPtr (Some entry))).

(** *** The next handler

    What a handler does with the writer and the request it is given, as the
    calls it makes in order, and how it ends. On the wrapped writer the
    calls are [WriteHeader], [Write] and changes of the header map; on the
    request's context, the helpers of the package and the entry's [Panic];
    and the handler may log through any logger it holds. *)
Inductive Action : Type :=
| DoWriteHeader (status : Z)                  (* [w.WriteHeader(status)] *)
| DoWrite (buf : list byte) (accepted : nat)  (* [w.Write(buf)] *)
| DoHeader (h : http_Header)                  (* [w.Header()] changed to [h] *)
| DoSetField (key : string) (value : any)     (* [LogEntrySetField] *)
| DoSetFields (fields : list (string * any))  (* [LogEntrySetFields] *)
| DoLog (lvl : Z) (msg : string) (fields : list Field)
    (* [RawLogEntry(r.Context())], then [Info], [Warn] or [Error] on it *)
| DoLogVia (l : Logger) (lvl : Z) (msg : string) (fields : list Field)
    (* the same on a logger the handler holds *)
| DoEntryPanic (v : any) (stack : list byte).
    (* [middleware.GetLogEntry(r).Panic(v, stack)], the call of chi's
       [Recoverer] when it recovers a panic; an entry of another type
       under the key writes elsewhere *)

Inductive Outcome : Type :=
| Returns
| Panics (v : panicValue).

Definition Handler : Type := Request -> list Action * Outcome.

Definition run_action (ctx : Context) (a : Action) (ww : basicWriter)
  (st : State) : result (basicWriter * State) :=
  match a with
  | DoWriteHeader c => Ok (basicWriter_WriteHeader ww c, st)
  | DoWrite buf accepted =>
      let '(_, _, ww) := basicWriter_Write ww buf accepted in Ok (ww, st)
  | DoHeader h => Ok (basicWriter_setHeader ww h, st)
  | DoSetField k v =>
      match LogEntrySetField ctx k v (heap st) with
      | Ok h => Ok (ww, mkState h (sink st))
      | Panicked e => Panicked e
      end
  | DoSetFields fields =>
      match LogEntrySetFields ctx fields (heap st) with
      | Ok h => Ok (ww, mkState h (sink st))
      | Panicked e => Panicked e
      end
  | DoLog lvl msg fields =>
      match RawLogEntry ctx (heap st) with
      | Ok l => Ok (ww, mkState (heap st) (Logger_log l lvl msg fields (sink st)))
      | Panicked e => Panicked e
      end
  | DoLogVia l lvl msg fields =>
      Ok (ww, mkState (heap st) (Logger_log l lvl msg fields (sink st)))
  | DoEntryPanic v stack =>
      match ctx_LogEntry ctx with
      | EntryPtr p =>
          match deref (heap st) p with
          | Ok e => Ok (ww, mkState (heap st) (zapLogEntry_Panic e v stack (sink st)))
          | Panicked e => Panicked e
          end
      | NoValue | OtherValue => Ok (ww, st)
      end
  end.

(** The calls in order, up to the first that panics. *)
Fixpoint run (ctx : Context) (acts : list Action) (ww : basicWriter)
  (st : State) : basicWriter * State * option panicValue :=
  match acts with
  | [] => (ww, st, None)
  | a :: acts =>
      match run_action ctx a ww st with
      | Ok (ww, st) => run ctx acts ww st
      | Panicked e => (ww, st, Some e)
      end
  end.

(** [next.ServeHTTP(ww, r)] *)
Definition ServeHTTP (next : Handler) (ww : basicWriter) (r : Request)
  (st : State) : Outcome * basicWriter * State :=
  let '(acts, out) := next r in
  let '(ww, st, p) := run (Ctx r) acts ww st in
  (match p with Some v => Panics v | None => out end, ww, st).

(** *** [ZapRequestLogger]

    [ZapRequestLogger(logger)(next).ServeHTTP(w, r)]. [elapsed] is what
    [time.Since(t1)] returns in the deferred function. The deferred function
    runs whichever way [next.ServeHTTP] ends, and that way is then the way
    the middleware ends: it has no [recover]. [buf] and the buffer the
    wrapper tees into are one object. *)
Definition ZapRequestLogger (logger : Logger) (next : Handler)
  (w : ResponseWriter) (r : Request) (elapsed : Z) (st : State)
  : Outcome * ResponseWriter * State :=
  let f := mkFormatter logger in
  let '(entry, r, st) := NewLogEntry f r st in
  let ww := NewWrapResponseWriter w (ProtoMajor r) in
  let buf := NewBuffer in
  let ww := Tee ww buf in
  let '(out, ww, st) := ServeHTTP next ww (WithLogEntry r entry) st in
  let buf := match tee ww with Some buf => buf | None => buf end in
  let '(respBody, _, _) := ReadAll buf in
  let extra := extraLogEntry respBody in
  match deref (heap st) (Some entry) with
  | Ok e =>
      (out, bw_ResponseWriter ww,
       mkState (heap st)
         (zapLogEntry_Write e (Status ww) (BytesWritten ww)
            (basicWriter_Header ww) elapsed extra (sink st)))
  | Panicked v => (Panics v, bw_ResponseWriter ww, st)
  end.

(** *** Handlers that go past [Write]

    On a connection of a [net/http] server the wrapper
    [NewWrapResponseWriter] returns is more than a [basicWriter]: for
    HTTP/1.x it is chi's [httpFancyWriter], whose [ReadFrom] is what
    [io.Copy(w, src)] and [http.ServeContent] call. *)

(** [io.ErrShortWrite] and [io.errInvalidWrite] *)
Definition ErrShortWrite : error := ErrOther "short write".
Definition errInvalidWrite : error := ErrOther "invalid write result".

(** The loop of [io.Copy] (for a [src] that has no [WriteTo] and a [dst]
    that has no [ReadFrom]), [write] being [dst.Write]:
<<
  buf = make([]byte, 32 * 1024)
  for {
    nr, er := src.Read(buf)
    if nr > 0 {
      nw, ew := dst.Write(buf[0:nr])
      if nw < 0 || nr < nw { nw = 0; if ew == nil { ew = errInvalidWrite } }
      written += int64(nw)
      if ew != nil { err = ew; break }
      if nr != nw { err = ErrShortWrite; break }
    }
    if er != nil { if er != EOF { err = er }; break }
  }
  return written, err
>>
    run on fuel, which [remaining] bounds, as for [io.ReadAll]. *)
Fixpoint copyLoop {W R : Type} `{Reader R}
  (write : W -> list byte -> nat * option error * W) (fuel : nat) (dst : W)
  (src : R) (written : Z) : option (Z * option error * W * R) :=
  match fuel with
  | 0 => None
  | S fuel =>
      let '(d, er, src) := Read src (32 * 1024) in
      let '(written, err, dst) :=
        if Nat.ltb 0 (length d) then
          let '(nw, ew, dst) := write dst d in
          let '(nw, ew) :=
            if Nat.ltb (length d) nw
            then (0, match ew with None => Some errInvalidWrite | _ => ew end)
            else (nw, ew) in
          let written := (written + Z.of_nat nw)%Z in
          match ew with
          | Some e => (written, Some e, dst)
          | None =>
              if negb (Nat.eqb (length d) nw)
              then (written, Some ErrShortWrite, dst)
              else (written, None, dst)
          end
        else (written, None, dst) in
      match err with
      | Some e => Some (written, Some e, dst, src)
      | None =>
          match er with
          | Some EOF => Some (written, None, dst, src)
          | Some e => Some (written, Some e, dst, src)
          | None => copyLoop write fuel dst src written
          end
      end
  end.

Definition Copy {W R : Type} `{Reader R}
  (write : W -> list byte -> nat * option error * W) (dst : W) (src : R)
  : Z * option error * W * R :=
  match copyLoop write (S (remaining src)) dst src 0 with
  | Some res => res
  | None => (0%Z, None, dst, src)
  end.

(** [httpFancyWriter.ReadFrom] of chi v5.0.7:
<<
  if f.basicWriter.tee != nil {
    n, err := io.Copy(&f.basicWriter, r)
    f.basicWriter.bytes += int(n)
    return n, err
  }
  rf := f.basicWriter.ResponseWriter.(io.ReaderFrom)
  f.basicWriter.maybeWriteHeader()
  n, err := rf.ReadFrom(r)
  f.basicWriter.bytes += int(n)
  return n, err
>>
    The copy goes through [basicWriter.Write], which counts the bytes, and
    the bytes are then counted again. [accepted] is what the connection
    takes of each write, as for [Write]; the server's own [ReadFrom] is
    taken as a copy onto the connection. *)
Definition httpFancyWriter_ReadFrom {R : Type} `{Reader R} (f : basicWriter)
  (r : R) (accepted : nat) : Z * option error * basicWriter * R :=
  match tee f with
  | Some _ =>
      let '(n, err, f, r) :=
        Copy (fun b buf => basicWriter_Write b buf accepted) f r in
      (n, err,
       mkBasicWriter (bw_ResponseWriter f) (wroteHeader f) (code f)
         (bytes f + n) (tee f), r)
  | None =>
      let f := maybeWriteHeader f in
      let '(n, err, w, r) :=
        Copy (fun w buf => ResponseWriter_Write w buf accepted)
          (bw_ResponseWriter f) r in
      (n, err, mkBasicWriter w (wroteHeader f) (code f) (bytes f + n) (tee f),
       r)
  end.

(** What the [ServeHTTP] of any [http.Handler] does: it is given the
    writer and the request, runs on the state, and ends. *)
Definition Serve : Type :=
  basicWriter -> Request -> State -> Outcome * basicWriter * State.

(** [ZapRequestLogger] for a next handler given as its [ServeHTTP]: the
    same function, line by line, with [serve] for [next.ServeHTTP]
    ([ZapRequestLogger_serving_ServeHTTP]). *)
Definition ZapRequestLogger_serving (logger : Logger) (serve : Serve)
  (w : ResponseWriter) (r : Request) (elapsed : Z) (st : State)
  : Outcome * ResponseWriter * State :=
  let f := mkFormatter logger in
  let '(entry, r, st) := NewLogEntry f r st in
  let ww := NewWrapResponseWriter w (ProtoMajor r) in
  let buf := NewBuffer in
  let ww := Tee ww buf in
  let '(out, ww, st) := serve ww (WithLogEntry r entry) st in
  let buf := match tee ww with Some buf => buf | None => buf end in
  let '(respBody, _, _) := ReadAll buf in
  let extra := extraLogEntry respBody in
  match deref (heap st) (Some entry) with
  | Ok e =>
      (out, bw_ResponseWriter ww,
       mkState (heap st)
         (zapLogEntry_Write e (Status ww) (BytesWritten ww)
            (basicWriter_Header ww) elapsed extra (sink st)))
  | Panicked v => (Panics v, bw_ResponseWriter ww, st)
  end.

(** * Definitions for the statements

    ** The header redactor as the specification words it

    [sensitive], [bracketed] and [redact] are written from the
    specification's words, to compare the code with. *)

(** The three names whose values are masked. *)
Definition sensitive (name : string) : bool :=
  String.eqb name "authorization" || String.eqb name "cookie"
  || String.eqb name "set-cookie".

(** ["[v1], [v2], ..., [vN]"] *)
Fixpoint bracketed (vs : list string) : string :=
  match vs with
  | [] => ""
  | [v] => "[" +:+ v +:+ "]"
  | v :: vs => "[" +:+ v +:+ "], " +:+ bracketed vs
  end.

(** The redacted output for one header: nothing for no value; under the
    lowercased name, the mask for a sensitive name, the value as it is for
    one value, the bracketed list for several. *)
Definition redact (kv : string * list string) : list Field :=
  let name := ToLower (fst kv) in
  match snd kv with
  | [] => []
  | [v] => [FString name (if sensitive name then maskedString else v)]
  | vs => [FString name (if sensitive name then maskedString else bracketed vs)]
  end.

(** The key of a field, and the string fields under a key. *)
Definition field_key (f : Field) : string :=
  match f with
  | FString k _ | FInt k _ | FDuration k _ | FObject k _ | FReflect k _ => k
  end.

Fixpoint field_strings (key : string) (fields : list Field) : list string :=
  match fields with
  | [] => []
  | FString k v :: fields =>
      if String.eqb k key then v :: field_strings key fields
      else field_strings key fields
  | _ :: fields => field_strings key fields
  end.

(** ** The request snapshot, field by field *)

(** The fields [httpRequestLog.MarshalLogObject] adds before it comes to
    the body. *)
Definition request_meta (r : Request) : list Field :=
  [FString "method" (Method r);
   FString "scheme" (if TLS r then "https" else "http");
   FString "host" (Host r);
   FString "requestURI" (RequestURI r);
   FString "proto" (Proto r);
   FString "remoteAddr" (RemoteAddr r)]
  ++ (if Nat.ltb 0 (length (Header r))
      then [FObject "header" (httpHeaderLog_MarshalLogObject (Header r) [])]
      else [])
  ++ (if String.eqb (GetReqID (Ctx r)) "" then []
      else [FString "reqId" (GetReqID (Ctx r))]).

(** The body field for the bytes read: none for no byte. *)
Definition body_field (bytes : list byte) : list Field :=
  match bytes with
  | [] => []
  | _ :: _ => [FString "body" (string_of_list_byte bytes)]
  end.

(** ** The handler's calls, one state at a time *)

(** What one call of the handler does to the writer, to the entry and to
    the sink, when the context holds a pointer to the entry. *)
Definition writer_step (ww : basicWriter) (a : Action) : basicWriter :=
  match a with
  | DoWriteHeader c => basicWriter_WriteHeader ww c
  | DoWrite buf accepted => snd (basicWriter_Write ww buf accepted)
  | DoHeader h => basicWriter_setHeader ww h
  | _ => ww
  end.

Definition extend (e : zapLogEntry) (kv : string * any) : zapLogEntry :=
  mkEntry (With (entry_Logger e) [zap_Reflect (fst kv) (snd kv)]).

Definition entry_step (e : zapLogEntry) (a : Action) : zapLogEntry :=
  match a with
  | DoSetField k v => extend e (k, v)
  | DoSetFields fields => fold_left extend fields e
  | _ => e
  end.

Definition records_step (e : zapLogEntry) (a : Action)
  (records : list LogRecord) : list LogRecord :=
  match a with
  | DoLog lvl msg fields => Logger_log (entry_Logger e) lvl msg fields records
  | DoLogVia l lvl msg fields => Logger_log l lvl msg fields records
  | DoEntryPanic v stack => zapLogEntry_Panic e v stack records
  | _ => records
  end.

Fixpoint records_after (acts : list Action) (e : zapLogEntry)
  (records : list LogRecord) : list LogRecord :=
  match acts with
  | [] => records
  | a :: acts => records_after acts (entry_step e a) (records_step e a records)
  end.

(** The bytes the connection took from the handler's writes. *)
Definition written_by (a : Action) : list byte :=
  match a with
  | DoWrite buf accepted => take (Nat.min accepted (length buf)) buf
  | _ => []
  end.

Definition written (acts : list Action) : list byte :=
  flat_map written_by acts.

(** Whether a call sends the status line. *)
Definition sends_status (a : Action) : bool :=
  match a with
  | DoWriteHeader _ | DoWrite _ _ => true
  | _ => false
  end.

Definition is_WriteHeader (a : Action) : bool :=
  match a with
  | DoWriteHeader _ => true
  | _ => false
  end.

(** ** The records of the middleware *)

(** The integer fields under a key. *)
Fixpoint field_ints (key : string) (fields : list Field) : list Z :=
  match fields with
  | [] => []
  | FInt k v :: fields =>
      if String.eqb k key then v :: field_ints key fields
      else field_ints key fields
  | _ :: fields => field_ints key fields
  end.

(** The fields of the logger [NewLogEntry] makes, for a body read as [B]. *)
Definition started_fields (ctx0 : list Field) (r : Request) (B : list byte)
  : list Field :=
  ctx0 ++ [FObject "httpRequest" (request_meta r ++ body_field B)].

(** The request [ZapRequestLogger] serves [next] with. *)
Definition handler_request (logger : Logger) (r : Request) (st : State)
  : Request :=
  let '(entry, r, _) := NewLogEntry (mkFormatter logger) r st in
  WithLogEntry r entry.

(** The fields the handler's calls add to the entry's logger. *)
Definition set_fields_by (a : Action) : list Field :=
  match a with
  | DoSetField k v => [FReflect k v]
  | DoSetFields fields => map (fun kv => FReflect (fst kv) (snd kv)) fields
  | _ => []
  end.

Definition set_fields (acts : list Action) : list Field :=
  flat_map set_fields_by acts.

Definition is_Write (a : Action) : bool :=
  match a with
  | DoWrite _ _ => true
  | _ => false
  end.

(** ** Further definitions for the statements *)

(** Whether a header has a value. *)
Definition has_values (kv : string * list string) : bool :=
  negb (Nat.eqb (length (snd kv)) 0).

(** Two headers a reader of the log cannot tell apart by design: the same
    name, and the same values unless the name is masked, in which case only
    whether there is a value at all. *)
Definition same_shape (kv kv' : string * list string) : Prop :=
  fst kv = fst kv'
  /\ if sensitive (ToLower (fst kv))
     then snd kv = [] <-> snd kv' = []
     else snd kv = snd kv'.

(** The object and duration fields under a key. *)
Fixpoint field_objects (key : string) (fields : list Field)
  : list (list Field) :=
  match fields with
  | [] => []
  | FObject k v :: fields =>
      if String.eqb k key then v :: field_objects key fields
      else field_objects key fields
  | _ :: fields => field_objects key fields
  end.

Fixpoint field_durations (key : string) (fields : list Field) : list Z :=
  match fields with
  | [] => []
  | FDuration k v :: fields =>
      if String.eqb k key then v :: field_durations key fields
      else field_durations key fields
  | _ :: fields => field_durations key fields
  end.

Definition is_LogVia (a : Action) : bool :=
  match a with
  | DoLogVia _ _ _ _ => true
  | _ => false
  end.

(** The header map after the handler's calls, and the status the first
    call on the status line sends (0 when there is none). *)
Definition final_header (acts : list Action) (h0 : http_Header) : http_Header :=
  fold_left (fun h a => match a with DoHeader h' => h' | _ => h end) acts h0.

Fixpoint first_status (acts : list Action) : Z :=
  match acts with
  | [] => 0
  | DoWriteHeader c :: _ => c
  | DoWrite _ _ :: _ => 200
  | _ :: acts => first_status acts
  end.

(** * Lemmas

    ** [io.ReadAll] *)

(** A reader's [remaining] reads are fuel enough for the loop. *)
Lemma readAllLoop_total {R} `{Reader R} (fuel : nat) :
  forall (r : R) b cap, length b < cap -> remaining r < fuel ->
  exists res, readAllLoop fuel r b cap = Some res.
Proof.
  induction fuel as [|fuel IH]; intros r b cap Hb Hf; [lia|].
  cbn [readAllLoop].
  destruct (Read r (cap - length b)) as [[d err] r'] eqn:E.
  destruct err as [[|msg]|]; [eauto | eauto |].
  pose proof (Read_len _ _ _ _ _ E) as Hd.
  assert (Hn : 0 < cap - length b) by lia.
  pose proof (Read_progress _ _ _ _ Hn E) as Hp.
  apply IH; [|lia]. rewrite length_app.
  destruct (Nat.eqb_spec (length b + length d) cap) as [->|Hne].
  - apply grow_gt.
  - lia.
Qed.

(** The fuel of [ReadAll] is enough: the loop ends in a return. *)
Lemma ReadAll_returns {R} `{Reader R} (r : R) :
  readAllLoop (S (remaining r)) r [] 512 = Some (ReadAll r).
Proof.
  unfold ReadAll.
  destruct (readAllLoop_total (S (remaining r)) r [] 512) as [res ->];
    [simpl; lia | lia | reflexivity].
Qed.

(** More fuel does not change what the loop returns. *)
Lemma readAllLoop_fuel_mono {R} `{Reader R} (fuel : nat) :
  forall fuel' (r : R) b cap res, fuel <= fuel' ->
  readAllLoop fuel r b cap = Some res -> readAllLoop fuel' r b cap = Some res.
Proof.
  induction fuel as [|fuel IH]; intros fuel' r b cap res Hle; [discriminate|].
  destruct fuel' as [|fuel']; [lia|]. cbn [readAllLoop].
  destruct (Read r (cap - length b)) as [[d err] r'].
  destruct err as [[|msg]|]; [auto | auto |]. apply IH. lia.
Qed.

(** Reading through a tee returns what the reader below returns, and
    leaves in the buffer what it held before followed by the bytes read. *)
Lemma readAllLoop_tee {R} `{Reader R} (fuel : nat) :
  forall (r : R) w b cap out e r',
  readAllLoop fuel r b cap = Some (out, e, r') ->
  exists d, out = b ++ d /\
    readAllLoop fuel (mkTee r w) b cap
    = Some (out, e, mkTee r' (mkBuffer (unread w ++ d))).
Proof.
  induction fuel as [|fuel IH]; intros r w b cap out e r'; [discriminate|].
  cbn [readAllLoop]. cbn [Read teeReader_Reader]. rewrite teeReader_Read_eq.
  cbn [tee_r tee_w].
  destruct (Read r (cap - length b)) as [[d err] r1].
  destruct err as [[|msg]|].
  - intros [= <- <- <-]. eauto.
  - intros [= <- <- <-]. eauto.
  - intros Hl. destruct (IH _ (mkBuffer (unread w ++ d)) _ _ _ _ _ Hl)
      as (d' & -> & ->).
    exists (d ++ d'). cbn [unread]. rewrite <- !app_assoc. auto.
Qed.

Lemma ReadAll_tee {R} `{Reader R} (r : R) (w : Buffer) :
  ReadAll (mkTee r w) =
  let '(out, e, r') := ReadAll r in
  (out, e, mkTee r' (mkBuffer (unread w ++ out))).
Proof.
  pose proof (ReadAll_returns r) as Hr.
  pose proof (ReadAll_returns (mkTee r w)) as Ht.
  destruct (ReadAll r) as [[out e] r'].
  destruct (readAllLoop_tee _ _ w _ _ _ _ _ Hr) as (d & Hd & Ht').
  cbn [remaining teeReader_Reader tee_r] in Ht. rewrite Ht' in Ht.
  simpl in Hd. subst d. congruence.
Qed.

(** Reading a buffer to the end returns its contents and empties it. *)
Lemma readAllLoop_Buffer (fuel : nat) :
  forall s b cap, length b < cap -> length s < fuel ->
  readAllLoop fuel (mkBuffer s) b cap = Some (b ++ s, None, mkBuffer []).
Proof.
  induction fuel as [|fuel IH]; intros s b cap Hb Hf; [lia|].
  cbn [readAllLoop]. cbn [Read Buffer_Reader]. unfold Buffer_Read.
  cbn [unread]. destruct s as [|x s].
  - destruct (Nat.eqb_spec (cap - length b) 0); [lia|]. reflexivity.
  - set (n := cap - length b). set (l := x :: s).
    assert (Hn : 0 < n) by (subst n; lia).
    assert (Hl : length (take n l) <= n) by (rewrite length_take; lia).
    rewrite IH.
    + rewrite <- app_assoc, take_drop. reflexivity.
    + rewrite length_app.
      destruct (Nat.eqb_spec (length b + length (take n l)) cap) as [->|Hne].
      * apply grow_gt.
      * subst n. lia.
    + rewrite length_drop. subst l. simpl in *. lia.
Qed.

Lemma ReadAll_Buffer (s : list byte) :
  ReadAll (mkBuffer s) = (s, None, mkBuffer []).
Proof.
  unfold ReadAll. rewrite readAllLoop_Buffer; cbn; [reflexivity | lia | lia].
Qed.

(** Reading a scripted stream to the end returns its chunks in order,
    and its final error unless that is [io.EOF]. *)
Lemma readAllLoop_chunks (fuel : nat) :
  forall cs fin b cap, length b < cap -> chunks_weight cs < fuel ->
  readAllLoop fuel (mkChunks cs fin) b cap
  = Some (b ++ concat cs, error_of_final fin, mkChunks [] fin).
Proof.
  induction fuel as [|fuel IH]; intros cs fin b cap Hb Hf; [lia|].
  cbn [readAllLoop]. cbn [Read chunkReader_Reader]. unfold chunkReader_Read.
  cbn [chunks final]. destruct cs as [|c cs].
  - cbn. rewrite !app_nil_r. destruct fin; reflexivity.
  - set (n := cap - length b). assert (Hn : 0 < n) by (subst n; lia).
    cbn [chunks_weight] in Hf.
    destruct (Nat.leb_spec (length c) n) as [Hc|Hc].
    + rewrite IH.
      * cbn [concat]. rewrite <- app_assoc. reflexivity.
      * rewrite length_app.
        destruct (Nat.eqb_spec (length b + length c) cap) as [->|Hne];
          [apply grow_gt | subst n; lia].
      * lia.
    + rewrite IH.
      * cbn [concat]. rewrite <- !app_assoc, (app_assoc (take n c)), take_drop.
        reflexivity.
      * rewrite length_app, length_take.
        destruct (Nat.eqb_spec (length b + n `min` length c) cap) as [->|Hne];
          [apply grow_gt | subst n; lia].
      * cbn [chunks_weight]. rewrite length_drop. lia.
Qed.

Lemma ReadAll_chunks cs fin :
  ReadAll (mkChunks cs fin) = (concat cs, error_of_final fin, mkChunks [] fin).
Proof.
  unfold ReadAll. rewrite readAllLoop_chunks; cbn; [reflexivity | lia | lia].
Qed.

(** ** The header redactor *)

Lemma string_app_assoc (a b c : string) : (a +:+ b) +:+ c = a +:+ (b +:+ c).
Proof.
  induction a as [|x a IH]; [reflexivity|].
  change (String x ((a +:+ b) +:+ c) = String x (a +:+ (b +:+ c))).
  f_equal. exact IH.
Qed.

Lemma Join_fold (sep : string) (rest : list string) :
  forall acc e,
  fold_left (fun b s => b +:+ sep +:+ s) rest (acc +:+ e)
  = acc +:+ fold_left (fun b s => b +:+ sep +:+ s) rest e.
Proof.
  induction rest as [|x rest IH]; intros acc e; cbn [fold_left].
  - reflexivity.
  - rewrite string_app_assoc. apply IH.
Qed.

Lemma Join_cons (sep e e' : string) (rest : list string) :
  Join (e :: e' :: rest) sep = e +:+ sep +:+ Join (e' :: rest) sep.
Proof.
  assert (Hj : Join (e' :: rest) sep
               = fold_left (fun b s => b +:+ sep +:+ s) rest e')
    by (destruct rest; reflexivity).
  rewrite Hj.
  change (Join (e :: e' :: rest) sep)
    with (fold_left (fun b s => b +:+ sep +:+ s) rest (e +:+ sep +:+ e')).
  now rewrite !Join_fold.
Qed.

(** The format the code builds with [Sprintf] and [Join] is the format
    of the specification. *)
Lemma Sprintf_Join_bracketed (v : string) (vs : list string) :
  Sprintf_brackets (Join (v :: vs) "], [") = bracketed (v :: vs).
Proof.
  revert v. induction vs as [|v' vs IH]; intros v.
  - reflexivity.
  - rewrite Join_cons. specialize (IH v'). unfold Sprintf_brackets in *.
    change (bracketed (v :: v' :: vs))
      with ("[" +:+ v +:+ "], " +:+ bracketed (v' :: vs)).
    rewrite <- IH. rewrite !string_app_assoc. reflexivity.
Qed.

Lemma httpHeaderLog_step_redact (enc : ObjectEncoder) (kv : string * list string) :
  httpHeaderLog_step enc kv = enc ++ redact kv.
Proof.
  destruct kv as [k v]. unfold httpHeaderLog_step, redact, AddString.
  cbn [fst snd]. fold (sensitive (ToLower k)).
  destruct (sensitive (ToLower k)); destruct v as [|v0 [|v1 vs]];
    rewrite <- ?(Sprintf_Join_bracketed v0 (v1 :: vs));
    cbn [length Nat.eqb negb andb]; rewrite ?app_nil_r; reflexivity.
Qed.

(** The code refines the specification's redactor: the fields it adds are
    those of [redact], header by header, in the order of the iteration. *)
Lemma httpHeaderLog_MarshalLogObject_redact (h : http_Header) :
  forall enc, httpHeaderLog_MarshalLogObject h enc = enc ++ flat_map redact h.
Proof.
  unfold httpHeaderLog_MarshalLogObject.
  induction h as [|kv h IH]; intros enc; cbn [fold_left flat_map].
  - now rewrite app_nil_r.
  - rewrite IH, httpHeaderLog_step_redact. now rewrite <- app_assoc.
Qed.

Lemma in_redact_key (kv : string * list string) (f : Field) :
  In f (redact kv) -> field_key f = ToLower (fst kv) /\ snd kv <> [].
Proof.
  unfold redact. destruct (snd kv) as [|v0 [|v1 vs]]; cbn.
  - tauto.
  - intros [<-|[]]. split; [reflexivity | discriminate].
  - intros [<-|[]]. split; [reflexivity | discriminate].
Qed.


(** Under names that differ even up to case, the fields of a header in
    the output are the fields of its own turn of the loop. *)
Lemma in_flat_map_redact_unique (h : http_Header) (k : string)
  (v : list string) (f : Field) :
  NoDup (map (fun kv => ToLower (fst kv)) h) -> In (k, v) h ->
  In f (flat_map redact h) -> field_key f = ToLower k -> In f (redact (k, v)).
Proof.
  intros Hnd Hin Hf Hk. apply in_flat_map in Hf as ([k' v'] & Hin' & Hf).
  destruct (in_redact_key _ _ Hf) as [Hk' _]. cbn [fst] in Hk'.
  assert (Heq : (k', v') = (k, v)); [|now rewrite <- Heq].
  apply list_elem_of_In in Hin, Hin'.
  apply list_elem_of_lookup in Hin as [i Hi], Hin' as [j Hj].
  assert (i = j); [|congruence].
  eapply (NoDup_lookup _ i j (ToLower k)); [exact Hnd | |].
  - rewrite list_lookup_fmap, Hi. reflexivity.
  - rewrite list_lookup_fmap, Hj. cbn. congruence.
Qed.

(** ** The request snapshot *)

Lemma field_strings_app (key : string) (l1 l2 : list Field) :
  field_strings key (l1 ++ l2) = field_strings key l1 ++ field_strings key l2.
Proof.
  induction l1 as [|f l1 IH]; [reflexivity|].
  destruct f as [k v|k v|k v|k v|k v]; cbn; try exact IH.
  destruct (String.eqb k key); cbn; now rewrite IH.
Qed.

Lemma field_strings_body_field (bytes : list byte) :
  field_strings "body" (body_field bytes)
  = match bytes with [] => [] | _ :: _ => [string_of_list_byte bytes] end.
Proof. destruct bytes; reflexivity. Qed.

Lemma field_strings_request_meta (r : Request) :
  field_strings "body" (request_meta r) = [].
Proof.
  unfold request_meta. rewrite !field_strings_app.
  destruct (Nat.ltb 0 (length (Header r)));
    destruct (String.eqb (GetReqID (Ctx r)) ""); reflexivity.
Qed.

(** Whatever reading the body returns, error or not, the marshaler adds
    the bytes read as the body field and leaves them as the new body. *)
Lemma httpRequestLog_MarshalLogObject_eq (r : Request) (enc : ObjectEncoder)
  (B : list byte) (e : option error) (rest : rc_type (Body r)) :
  ReadAll (rc_state (Body r)) = (B, e, rest) ->
  httpRequestLog_MarshalLogObject r enc
  = (enc ++ request_meta r ++ body_field B,
     set_Body r (NopCloser (mkBuffer B))).
Proof.
  intros HB. unfold httpRequestLog_MarshalLogObject.
  rewrite ReadAll_tee, HB. cbn [tee_w NewBuffer unread app].
  unfold request_meta, body_field, AddString, AddObject_header.
  destruct (Nat.ltb 0 (length (Header r)));
    destruct (String.eqb (GetReqID (Ctx r)) ""); destruct B;
    cbn [length Nat.eqb negb]; rewrite <- ?app_assoc; cbn [app];
    rewrite ?app_nil_r; reflexivity.
Qed.

(** A logger with several cores (zap's [NewTee]) encodes the fields once
    per core, that is, runs the marshaler again on the request it has left:
    the second run adds the same fields and leaves the same request. *)
Lemma httpRequestLog_MarshalLogObject_again (r : Request)
  (enc enc' : ObjectEncoder) (B : list byte) (e : option error)
  (rest : rc_type (Body r)) :
  ReadAll (rc_state (Body r)) = (B, e, rest) ->
  httpRequestLog_MarshalLogObject
    (snd (httpRequestLog_MarshalLogObject r enc)) enc'
  = (enc' ++ request_meta r ++ body_field B,
     snd (httpRequestLog_MarshalLogObject r enc)).
Proof.
  intros HB. rewrite (httpRequestLog_MarshalLogObject_eq r enc B e rest HB).
  cbn [snd].
  exact (httpRequestLog_MarshalLogObject_eq
           (set_Body r (NopCloser (mkBuffer B))) enc' B None (mkBuffer [])
           (ReadAll_Buffer B)).
Qed.

(** ** The handler's run *)

Lemma entry_extend_all_eq (p : loc) (fields : list (string * any)) :
  forall h e, h !! p = Some e ->
  entry_extend_all (Some p) fields h = Ok (<[p := fold_left extend fields e]> h).
Proof.
  induction fields as [|[k v] fields IH]; intros h e He; cbn.
  - now rewrite insert_id.
  - rewrite He. erewrite IH by apply lookup_insert_eq.
    now rewrite insert_insert_eq.
Qed.

Lemma run_action_attached (ctx : Context) (p : loc) (a : Action)
  (ww : basicWriter) (st : State) (e : zapLogEntry) :
  ctx_LogEntry ctx = EntryPtr (Some p) -> heap st !! p = Some e ->
  run_action ctx a ww st
  = Ok (writer_step ww a,
        mkState (<[p := entry_step e a]> (heap st))
          (records_step e a (sink st))).
Proof.
  intros Hc He. destruct st as [h recs]. cbn [heap sink] in *.
  destruct a; cbn [run_action writer_step entry_step records_step];
    unfold LogEntrySetField, LogEntrySetFields, RawLogEntry;
    rewrite ?Hc; cbn [heap sink deref entry_extend]; rewrite ?He;
    rewrite ?(insert_id h p e He); try reflexivity.
  - destruct (basicWriter_Write ww buf accepted) as [[n err] ww']. reflexivity.
  - now rewrite (entry_extend_all_eq p fields h e He).
Qed.

(** With the entry in the context, no call of the handler panics, and the
    calls amount to the three folds. *)
Lemma run_attached (ctx : Context) (p : loc) (acts : list Action) :
  ctx_LogEntry ctx = EntryPtr (Some p) ->
  forall ww st e, heap st !! p = Some e ->
  run ctx acts ww st
  = (fold_left writer_step acts ww,
     mkState (<[p := fold_left entry_step acts e]> (heap st))
       (records_after acts e (sink st)),
     None).
Proof.
  intros Hc. induction acts as [|a acts IH]; intros ww st e He.
  - cbn. rewrite (insert_id _ _ _ He). now destruct st.
  - cbn [run fold_left records_after].
    rewrite (run_action_attached ctx p a ww st e Hc He).
    rewrite (IH _ _ (entry_step e a)) by apply lookup_insert_eq.
    cbn [heap sink]. now rewrite insert_insert_eq.
Qed.

(** The sink only grows. *)
Lemma Logger_log_app (l : Logger) lvl msg fields (records : list LogRecord) :
  exists new, Logger_log l lvl msg fields records = records ++ new.
Proof.
  unfold Logger_log. destruct (core l).
  - exists []. now rewrite app_nil_r.
  - eauto.
Qed.

Lemma records_step_app (e : zapLogEntry) (a : Action) (records : list LogRecord) :
  exists new, records_step e a records = records ++ new.
Proof.
  destruct a; cbn [records_step]; unfold zapLogEntry_Panic;
    try apply Logger_log_app; exists []; now rewrite app_nil_r.
Qed.

Lemma records_after_app (acts : list Action) :
  forall e records, exists during,
  records_after acts e records = records ++ during.
Proof.
  induction acts as [|a acts IH]; intros e records; cbn [records_after].
  - exists []. now rewrite app_nil_r.
  - destruct (records_step_app e a records) as [new ->].
    destruct (IH (entry_step e a) (records ++ new)) as [during ->].
    exists (new ++ during). now rewrite app_assoc.
Qed.

(** The writer after the handler's calls: the tee buffer and the client
    have both received the bytes written, and [bytes] has counted them. *)
Lemma writer_step_written (ww : basicWriter) (a : Action) (t : Buffer) :
  tee ww = Some t ->
  let ww' := writer_step ww a in
  tee ww' = Some (mkBuffer (unread t ++ written_by a))
  /\ bytes ww' = (bytes ww + Z.of_nat (length (written_by a)))%Z
  /\ rw_sent (bw_ResponseWriter ww')
     = rw_sent (bw_ResponseWriter ww) ++ written_by a.
Proof.
  intros Ht. destruct t as [t].
  destruct ww as [[hd stt snt] wh c b te]. cbn in Ht. subst te.
  destruct a; cbn [writer_step written_by length unread];
    rewrite ?app_nil_r, ?Z.add_0_r; try (now split).
  - unfold basicWriter_WriteHeader, ResponseWriter_WriteHeader.
    destruct wh, stt; cbn; auto.
  - unfold basicWriter_Write, maybeWriteHeader, basicWriter_WriteHeader,
      ResponseWriter_Write, ResponseWriter_WriteHeader, Buffer_Write.
    destruct wh, stt; cbn; rewrite length_take;
      (split; [reflexivity | split; [f_equal; lia | reflexivity]]).
Qed.

Lemma writer_after_written (acts : list Action) :
  forall ww t, tee ww = Some t ->
  let ww' := fold_left writer_step acts ww in
  tee ww' = Some (mkBuffer (unread t ++ written acts))
  /\ bytes ww' = (bytes ww + Z.of_nat (length (written acts)))%Z
  /\ rw_sent (bw_ResponseWriter ww')
     = rw_sent (bw_ResponseWriter ww) ++ written acts.
Proof.
  induction acts as [|a acts IH]; intros ww t Ht; cbn [fold_left].
  - unfold written. cbn. rewrite app_nil_r, app_nil_r, Z.add_0_r.
    destruct t. auto.
  - destruct (writer_step_written ww a t Ht) as (Ht1 & Hb1 & Hs1).
    destruct (IH _ _ Ht1) as (Ht2 & Hb2 & Hs2). cbn zeta in *.
    rewrite Ht2, Hb2, Hs2, Hb1, Hs1. unfold written. cbn [flat_map unread].
    rewrite length_app, Nat2Z.inj_add, <- !app_assoc. split; [reflexivity|].
    split; [lia | reflexivity].
Qed.

(** The status the wrapper reports. Once a call has sent the status line,
    the code stays. *)
Lemma writer_after_wroteHeader (acts : list Action) :
  forall ww, wroteHeader ww = true ->
  let ww' := fold_left writer_step acts ww in
  wroteHeader ww' = true /\ code ww' = code ww.
Proof.
  induction acts as [|a acts IH]; intros ww Hw; cbn [fold_left]; [auto|].
  assert (Ha : wroteHeader (writer_step ww a) = true
               /\ code (writer_step ww a) = code ww).
  { destruct a; cbn [writer_step]; auto.
    - unfold basicWriter_WriteHeader. now rewrite Hw.
    - unfold basicWriter_Write, maybeWriteHeader. rewrite Hw.
      destruct (ResponseWriter_Write _ _ _) as [[n err] w].
      destruct (tee ww); cbn; auto. }
  destruct Ha as [Hw' Hc']. destruct (IH _ Hw') as [? ?]. cbn zeta in *.
  split; congruence.
Qed.

(** As long as no call sends the status line, the code is untouched. *)
Lemma writer_after_no_status (acts : list Action) :
  forall ww, forallb (fun a => negb (sends_status a)) acts = true ->
  let ww' := fold_left writer_step acts ww in
  wroteHeader ww' = wroteHeader ww /\ code ww' = code ww.
Proof.
  induction acts as [|a acts IH]; intros ww Hf; cbn [fold_left]; [auto|].
  cbn [forallb] in Hf. apply andb_prop in Hf as [Ha Hf].
  destruct (IH (writer_step ww a) Hf) as [Hw Hc]. cbn zeta in *.
  rewrite Hw, Hc. destruct a; cbn in Ha; try discriminate; auto.
Qed.

Lemma writer_step_WriteHeader (ww : basicWriter) (c : Z) :
  wroteHeader ww = false ->
  let ww' := writer_step ww (DoWriteHeader c) in
  wroteHeader ww' = true /\ code ww' = c.
Proof.
  intros Hw. cbn. unfold basicWriter_WriteHeader. rewrite Hw. cbn. auto.
Qed.

Lemma writer_step_Write (ww : basicWriter) (buf : list byte) (accepted : nat) :
  wroteHeader ww = false ->
  let ww' := writer_step ww (DoWrite buf accepted) in
  wroteHeader ww' = true /\ code ww' = 200%Z.
Proof.
  intros Hw. cbn. unfold basicWriter_Write, maybeWriteHeader,
    basicWriter_WriteHeader. rewrite Hw. cbn.
  destruct (tee ww); cbn; auto.
Qed.

(** A handler whose first call on the status line is [WriteHeader(S)]. *)
Lemma writer_after_WriteHeader (pre post : list Action) (S : Z) :
  forall ww, wroteHeader ww = false ->
  forallb (fun a => negb (sends_status a)) pre = true ->
  code (fold_left writer_step (pre ++ DoWriteHeader S :: post) ww) = S.
Proof.
  intros ww Hw Hpre. rewrite fold_left_app. cbn [fold_left].
  destruct (writer_after_no_status pre ww Hpre) as [Hw1 Hc1]. cbn zeta in *.
  rewrite Hw in Hw1.
  destruct (writer_step_WriteHeader _ S Hw1) as [Hw2 Hc2].
  destruct (writer_after_wroteHeader post _ Hw2) as [_ Hc3]. cbn zeta in *.
  congruence.
Qed.

(** A handler that never calls [WriteHeader]: 200 if it writes, and the
    code the wrapper started with if it does not. *)
Lemma writer_after_no_WriteHeader (acts : list Action) :
  forall ww, wroteHeader ww = false ->
  forallb (fun a => negb (is_WriteHeader a)) acts = true ->
  code (fold_left writer_step acts ww)
  = if existsb sends_status acts then 200%Z else code ww.
Proof.
  induction acts as [|a acts IH]; intros ww Hw Hf; [reflexivity|].
  cbn [forallb] in Hf. apply andb_prop in Hf as [Ha Hf].
  cbn [fold_left existsb].
  destruct a; cbn in Ha; try discriminate; cbn [sends_status orb];
    try (cbn [writer_step]; now apply IH).
  - destruct (writer_step_Write ww buf accepted Hw) as [Hw1 Hc1].
    destruct (writer_after_wroteHeader acts _ Hw1) as [_ Hc2].
    cbn zeta in *. congruence.
  - rewrite IH; auto.
Qed.

(** ** The middleware as a whole *)

Lemma field_ints_app (key : string) (l1 l2 : list Field) :
  field_ints key (l1 ++ l2) = field_ints key l1 ++ field_ints key l2.
Proof.
  induction l1 as [|f l1 IH]; [reflexivity|].
  destruct f as [k v|k v|k v|k v|k v]; cbn; try exact IH.
  destruct (String.eqb k key); cbn; now rewrite IH.
Qed.

Lemma NewLogEntry_eq (logger : Logger) (ctx0 : list Field) (r : Request)
  (st : State) (B : list byte) (e : option error) (rest : rc_type (Body r)) :
  core logger = ioCore ctx0 ->
  ReadAll (rc_state (Body r)) = (B, e, rest) ->
  NewLogEntry (mkFormatter logger) r st
  = (fresh (dom (heap st)),
     set_Body r (NopCloser (mkBuffer B)),
     mkState
       (<[fresh (dom (heap st)) :=
            mkEntry (mkLogger (ioCore (started_fields ctx0 r B))
                       (addStack logger))]> (heap st))
       (sink st ++ [mkRecord InfoLevel "Request started"
                      (started_fields ctx0 r B)
                      (Z.leb (addStack logger) InfoLevel)])).
Proof.
  intros Hc HB. unfold NewLogEntry, With_Object. cbn [fmt_Logger].
  rewrite Hc, (httpRequestLog_MarshalLogObject_eq r [] B e rest HB).
  unfold Logger_log. cbn [core addStack app]. rewrite app_nil_r.
  reflexivity.
Qed.

Lemma response_object_eq (status n : Z) (header : http_Header) (elapsed : Z)
  (R : list byte) :
  let o := httpResponseLog_MarshalLogObject
             (mkResponseLog status n header elapsed (extraLogEntry R)) [] in
  field_ints "status" o = [status] /\ field_ints "bytes" o = [n]
  /\ field_strings "body" o
     = match R with [] => [] | _ :: _ => [string_of_list_byte R] end.
Proof.
  unfold httpResponseLog_MarshalLogObject, AddInt, AddDuration, AddString,
    AddObject_header.
  cbn [resp_Status resp_Bytes resp_Header resp_Elapsed resp_Extra app].
  destruct (Nat.ltb 0 (length header)); destruct R; cbn; auto.
Qed.

(** The run of the middleware in closed form, for a logger that writes. *)
Lemma ZapRequestLogger_eq (logger : Logger) (ctx0 : list Field)
  (next : Handler) (w : ResponseWriter) (r : Request) (elapsed : Z)
  (st : State) (B : list byte) (e : option error) (rest : rc_type (Body r)) :
  core logger = ioCore ctx0 ->
  ReadAll (rc_state (Body r)) = (B, e, rest) ->
  let p := fresh (dom (heap st)) in
  let l1 := mkLogger (ioCore (started_fields ctx0 r B)) (addStack logger) in
  let started := mkRecord InfoLevel "Request started"
                   (started_fields ctx0 r B)
                   (Z.leb (addStack logger) InfoLevel) in
  let rq := WithLogEntry (set_Body r (NopCloser (mkBuffer B))) p in
  let acts := fst (next rq) in
  let ww := fold_left writer_step acts
              (Tee (NewWrapResponseWriter w (ProtoMajor r)) NewBuffer) in
  let en := fold_left entry_step acts (mkEntry l1) in
  ZapRequestLogger logger next w r elapsed st
  = (snd (next rq), bw_ResponseWriter ww,
     mkState (<[p := en]> (heap st))
       (zapLogEntry_Write en (Status ww) (BytesWritten ww)
          (basicWriter_Header ww) elapsed (extraLogEntry (written acts))
          (records_after acts (mkEntry l1) (sink st ++ [started])))).
Proof.
  intros Hc HB. cbv zeta.
  unfold ZapRequestLogger. rewrite (NewLogEntry_eq _ _ _ _ _ _ _ Hc HB).
  cbn [ProtoMajor set_Body]. unfold ServeHTTP.
  set (p := fresh (dom (heap st))).
  set (l1 := mkLogger (ioCore (started_fields ctx0 r B)) (addStack logger)).
  set (rq := WithLogEntry _ p).
  destruct (next rq) as [acts out]. cbn [fst snd].
  rewrite (run_attached (Ctx rq) p acts eq_refl _ _ (mkEntry l1))
    by apply lookup_insert_eq.
  cbn [heap sink].
  destruct (writer_after_written acts
              (Tee (NewWrapResponseWriter w (ProtoMajor r)) NewBuffer)
              NewBuffer eq_refl) as (Ht & _).
  cbv zeta in Ht. rewrite Ht. cbn [NewBuffer unread app].
  rewrite ReadAll_Buffer.
  unfold deref. rewrite insert_insert_eq, lookup_insert_eq. reflexivity.
Qed.

(** The handler is served with [handler_request], whatever the logger. *)
Lemma ZapRequestLogger_handler_request (logger : Logger) (next : Handler)
  (w : ResponseWriter) (r : Request) (elapsed : Z) (st : State) :
  ZapRequestLogger logger next w r elapsed st
  = ZapRequestLogger logger (fun _ => next (handler_request logger r st))
      w r elapsed st.
Proof.
  unfold ZapRequestLogger, handler_request.
  destruct (NewLogEntry (mkFormatter logger) r st) as [[entry r1] st1].
  reflexivity.
Qed.

Lemma handler_request_eq (logger : Logger) (ctx0 : list Field) (r : Request)
  (st : State) (B : list byte) (e : option error) (rest : rc_type (Body r)) :
  core logger = ioCore ctx0 ->
  ReadAll (rc_state (Body r)) = (B, e, rest) ->
  handler_request logger r st
  = WithLogEntry (set_Body r (NopCloser (mkBuffer B))) (fresh (dom (heap st))).
Proof.
  intros Hc HB. unfold handler_request.
  now rewrite (NewLogEntry_eq _ _ _ _ _ _ _ Hc HB).
Qed.

Lemma fold_extend_core (fields : list (string * any)) :
  forall e fs, core (entry_Logger e) = ioCore fs ->
  core (entry_Logger (fold_left extend fields e))
  = ioCore (fs ++ map (fun kv => FReflect (fst kv) (snd kv)) fields)
  /\ addStack (entry_Logger (fold_left extend fields e))
     = addStack (entry_Logger e).
Proof.
  induction fields as [|kv fields IH]; intros e fs He; cbn [fold_left map].
  - now rewrite app_nil_r.
  - destruct (IH (extend e kv) (fs ++ [FReflect (fst kv) (snd kv)])) as [-> ->].
    + unfold extend, With. now rewrite He.
    + rewrite <- app_assoc. split; [reflexivity|].
      unfold extend, With. now rewrite He.
Qed.

Lemma entry_after_core (acts : list Action) :
  forall e fs, core (entry_Logger e) = ioCore fs ->
  core (entry_Logger (fold_left entry_step acts e))
  = ioCore (fs ++ set_fields acts)
  /\ addStack (entry_Logger (fold_left entry_step acts e))
     = addStack (entry_Logger e).
Proof.
  induction acts as [|a acts IH]; intros e fs He; cbn [fold_left].
  - unfold set_fields. cbn. now rewrite app_nil_r.
  - assert (Ha : core (entry_Logger (entry_step e a))
                 = ioCore (fs ++ set_fields_by a)
                 /\ addStack (entry_Logger (entry_step e a))
                    = addStack (entry_Logger e)).
    { destruct a; cbn [entry_step set_fields_by]; rewrite ?app_nil_r; auto.
      - apply (fold_extend_core [(key, value)] e fs He).
      - apply (fold_extend_core fields e fs He). }
    destruct Ha as [Hc Hs]. destruct (IH _ _ Hc) as [-> ->].
    unfold set_fields. cbn [flat_map]. rewrite <- app_assoc. auto.
Qed.

Lemma zapLogEntry_Write_eq (e : zapLogEntry) (fs : list Field)
  (status n : Z) (header : http_Header) (elapsed : Z) (extra : Extra)
  (records : list LogRecord) :
  core (entry_Logger e) = ioCore fs ->
  zapLogEntry_Write e status n header elapsed extra records
  = records ++
    [mkRecord InfoLevel "Request complete"
       (fs ++ [FObject "httpResponse"
                 (httpResponseLog_MarshalLogObject
                    (mkResponseLog status n header elapsed extra) [])])
       (Z.leb (addStack (entry_Logger e)) InfoLevel)].
Proof. intros He. unfold zapLogEntry_Write, Logger_log. now rewrite He. Qed.

Lemma existsb_sends_status (acts : list Action) :
  forallb (fun a => negb (is_WriteHeader a)) acts = true ->
  existsb sends_status acts = existsb is_Write acts.
Proof.
  induction acts as [|a acts IH]; [reflexivity|]. cbn [forallb existsb].
  intros [Ha Hf]%andb_prop. rewrite (IH Hf).
  destruct a; cbn in Ha; try discriminate; reflexivity.
Qed.

(** The completion record of a run: the last record of the sink, made
    from the entry and the wrapper as the handler's calls left them. *)
Lemma ZapRequestLogger_complete (logger : Logger) (ctx0 : list Field)
  (next : Handler) (w : ResponseWriter) (r : Request) (elapsed : Z)
  (st : State) :
  core logger = ioCore ctx0 ->
  let acts := fst (next (handler_request logger r st)) in
  let ww := fold_left writer_step acts
              (Tee (NewWrapResponseWriter w (ProtoMajor r)) NewBuffer) in
  exists B st' prior stk,
    ZapRequestLogger logger next w r elapsed st
    = (snd (next (handler_request logger r st)), bw_ResponseWriter ww, st')
    /\ sink st'
       = prior ++
         [mkRecord InfoLevel "Request complete"
            ((started_fields ctx0 r B ++ set_fields acts) ++
             [FObject "httpResponse"
                (httpResponseLog_MarshalLogObject
                   (mkResponseLog (Status ww) (BytesWritten ww)
                      (basicWriter_Header ww) elapsed
                      (extraLogEntry (written acts))) [])])
            stk].
Proof.
  intros Hc.
  destruct (ReadAll (rc_state (Body r))) as [[B e] rest] eqn:HB.
  rewrite (handler_request_eq _ _ _ st _ _ _ Hc HB).
  pose proof (ZapRequestLogger_eq _ _ next w _ elapsed st _ _ _ Hc HB) as HZ.
  cbv zeta in *.
  set (l1 := mkLogger (ioCore (started_fields ctx0 r B)) (addStack logger)) in *.
  set (rq := WithLogEntry _ _) in *.
  destruct (entry_after_core (fst (next rq)) (mkEntry l1) _ eq_refl)
    as [Hcore _].
  rewrite (zapLogEntry_Write_eq _ _ _ _ _ _ _ _ Hcore) in HZ.
  eexists B, _, _, _. split; [exact HZ|]. reflexivity.
Qed.

(** ** Handlers that go past [Write] *)

(** A reader's [remaining] reads are fuel enough for the copy. *)
Lemma copyLoop_total {W R : Type} `{Reader R}
  (write : W -> list byte -> nat * option error * W) (fuel : nat) :
  forall (dst : W) (src : R) written, remaining src < fuel ->
  exists res, copyLoop write fuel dst src written = Some res.
Proof.
  induction fuel as [|fuel IH]; intros dst src written Hf; [lia|].
  cbn [copyLoop].
  destruct (Read src (32 * 1024)) as [[d er] src'] eqn:E.
  destruct (if Nat.ltb 0 (length d) then _ else _) as [[written' err] dst'].
  destruct err as [e|]; [eauto|].
  destruct er as [[|msg]|]; [eauto | eauto |].
  assert (Hn : 0 < 32 * 1024) by lia.
  pose proof (Read_progress _ _ _ _ Hn E) as Hp.
  apply IH. lia.
Qed.

Lemma Copy_returns {W R : Type} `{Reader R}
  (write : W -> list byte -> nat * option error * W) (dst : W) (src : R) :
  copyLoop write (S (remaining src)) dst src 0 = Some (Copy write dst src).
Proof.
  unfold Copy.
  destruct (copyLoop_total write (S (remaining src)) dst src 0%Z) as [res ->];
    [lia | reflexivity].
Qed.

(** The middleware over the handlers of [Action] is the middleware over
    what their [ServeHTTP] does. *)
Lemma ZapRequestLogger_serving_ServeHTTP (logger : Logger) (next : Handler)
  (w : ResponseWriter) (r : Request) (elapsed : Z) (st : State) :
  ZapRequestLogger logger next w r elapsed st
  = ZapRequestLogger_serving logger (ServeHTTP next) w r elapsed st.
Proof. reflexivity. Qed.

(** * The claims *)

(** C1. For every request body byte sequence [B] (the body stream delivers
    [B] and ends), after [NewLogEntry] has built the request snapshot the
    request the next handler is served with has a body stream that
    delivers exactly [B]: reading it to the end returns [B] without error.
    With a logger that writes, that stream is a buffer of contents [B], and
    the "Request started" record carries the snapshot with the body field
    equal to [B], and with no body field at all when [B] is empty. *)
Theorem C1_request_body_preserved (logger : Logger) (r : Request)
  (st : State) (B : list byte) (rest : rc_type (Body r)) :
  ReadAll (rc_state (Body r)) = (B, None, rest) ->
  exists entry r1 st1,
    NewLogEntry (mkFormatter logger) r st = (entry, r1, st1)
    /\ (forall next w elapsed,
          ZapRequestLogger logger next w r elapsed st
          = ZapRequestLogger logger (fun _ => next (WithLogEntry r1 entry))
              w r elapsed st)
    /\ fst (ReadAll (rc_state (Body (WithLogEntry r1 entry)))) = (B, None)
    /\ (forall ctx0, core logger = ioCore ctx0 ->
        Body (WithLogEntry r1 entry) = NopCloser (mkBuffer B)
        /\ exists o stk,
             sink st1
             = sink st ++ [mkRecord InfoLevel "Request started"
                             (ctx0 ++ [FObject "httpRequest" o]) stk]
             /\ field_strings "body" o
                = match B with
                  | [] => []
                  | _ :: _ => [string_of_list_byte B]
                  end).
Proof.
  intros HB.
  assert (Hserve : forall entry r1 st1,
            NewLogEntry (mkFormatter logger) r st = (entry, r1, st1) ->
            forall next w elapsed,
              ZapRequestLogger logger next w r elapsed st
              = ZapRequestLogger logger
                  (fun _ => next (WithLogEntry r1 entry)) w r elapsed st).
  { intros entry r1 st1 HN next w elapsed. unfold ZapRequestLogger.
    now rewrite HN. }
  destruct (core logger) as [|ctx1] eqn:Hc.
  - assert (HN : NewLogEntry (mkFormatter logger) r st
                 = (fresh (dom (heap st)), r,
                    mkState (<[fresh (dom (heap st)) := mkEntry logger]>
                               (heap st)) (sink st))).
    { unfold NewLogEntry, With_Object, Logger_log. cbn [fmt_Logger].
      rewrite Hc. cbv beta iota. now rewrite Hc. }
    eexists _, _, _. split; [exact HN|]. split; [exact (Hserve _ _ _ HN)|].
    split; [|discriminate].
    cbn [WithLogEntry WithContext Body]. now rewrite HB.
  - pose proof (NewLogEntry_eq _ _ _ st _ _ _ Hc HB) as HN.
    eexists _, _, _. split; [exact HN|]. split; [exact (Hserve _ _ _ HN)|].
    split.
    + cbn [WithLogEntry WithContext Body set_Body NopCloser rc_state].
      now rewrite ReadAll_Buffer.
    + intros ctx0 [= <-]. split; [reflexivity|].
      eexists _, _. split; [reflexivity|].
      now rewrite field_strings_app, field_strings_request_meta,
        field_strings_body_field.
Qed.

(** C2. For every request, with a logger that writes: the "Request
    started" record is in the sink when the next handler starts; whichever
    way the handler ends ([out] is its return or its panic, which the
    middleware passes on), the middleware then adds exactly one record,
    "Request complete", after everything the handler's run added; and a
    "Panic" record, if there is one, stands before that completion
    record. *)
Theorem C2_started_then_handler_then_complete (logger : Logger)
  (ctx0 : list Field) (next : Handler) (w : ResponseWriter) (r : Request)
  (elapsed : Z) (st : State) :
  core logger = ioCore ctx0 ->
  exists entry r1 st1 out ww st2 w' st3 started during complete,
    NewLogEntry (mkFormatter logger) r st = (entry, r1, st1)
    /\ sink st1 = sink st ++ [started]
    /\ Message started = "Request started"
    /\ ServeHTTP next
         (Tee (NewWrapResponseWriter w (ProtoMajor r1)) NewBuffer)
         (WithLogEntry r1 entry) st1 = (out, ww, st2)
    /\ out = snd (next (WithLogEntry r1 entry))
    /\ sink st2 = sink st1 ++ during
    /\ ZapRequestLogger logger next w r elapsed st = (out, w', st3)
    /\ sink st3 = sink st2 ++ [complete]
    /\ Message complete = "Request complete"
    /\ Level complete = InfoLevel
    /\ (forall i rec, sink st3 !! i = Some rec -> Message rec = "Panic" ->
        i < length (sink st2)).
Proof.
  intros Hc.
  destruct (ReadAll (rc_state (Body r))) as [[B e] rest] eqn:HB.
  pose proof (NewLogEntry_eq _ _ _ st _ _ _ Hc HB) as HN.
  pose proof (ZapRequestLogger_eq _ _ next w _ elapsed st _ _ _ Hc HB) as HZ.
  cbv zeta in HZ.
  set (p := fresh (dom (heap st))) in *.
  set (l1 := mkLogger (ioCore (started_fields ctx0 r B)) (addStack logger)) in *.
  set (rq := WithLogEntry (set_Body r (NopCloser (mkBuffer B))) p) in *.
  set (started := mkRecord InfoLevel "Request started" _ _) in *.
  destruct (next rq) as [acts out] eqn:Hn. cbn [fst snd] in HZ.
  destruct (entry_after_core acts (mkEntry l1) _ eq_refl) as [Hcore _].
  rewrite (zapLogEntry_Write_eq _ _ _ _ _ _ _ _ Hcore) in HZ.
  destruct (records_after_app acts (mkEntry l1) (sink st ++ [started]))
    as [during Hd].
  eexists p, _, _, out, _, _, _, _, started, during, _.
  split; [exact HN|]. cbn [sink ProtoMajor set_Body].
  split; [reflexivity|]. split; [reflexivity|]. split.
  { unfold ServeHTTP. fold rq. rewrite Hn.
    rewrite (run_attached (Ctx rq) p acts eq_refl _ _ (mkEntry l1))
      by apply lookup_insert_eq. reflexivity. }
  fold rq. rewrite Hn. cbn [sink heap fst snd].
  split; [reflexivity|]. split; [exact Hd|]. split; [exact HZ|].
  cbn [sink]. split; [reflexivity|]. split; [reflexivity|].
  split; [reflexivity|].
  intros i rec Hi Hm.
  destruct (decide (i < length (records_after acts (mkEntry l1)
                                  (sink st ++ [started])))) as [|Hge];
    [assumption|].
  rewrite lookup_app_r in Hi by lia.
  destruct (i - _) as [|k]; cbn in Hi; [|discriminate].
  injection Hi as <-. discriminate Hm.
Qed.


(** C4 (amended). If reading the request body stream fails after the
    bytes [B], the error is dropped and the snapshot proceeds with the bytes
    read before the failure: they are the body field of the "Request
    started" record (there is no body field only when no byte was read),
    they are what the replaced body stream holds, and the next handler is
    served. *)
Theorem C4_failed_read_keeps_bytes_read (logger : Logger) (ctx0 : list Field)
  (r : Request) (st : State) (B : list byte) (err : error)
  (rest : rc_type (Body r)) :
  core logger = ioCore ctx0 ->
  ReadAll (rc_state (Body r)) = (B, Some err, rest) ->
  exists entry r1 st1 o stk,
    NewLogEntry (mkFormatter logger) r st = (entry, r1, st1)
    /\ Body r1 = NopCloser (mkBuffer B)
    /\ sink st1
       = sink st ++ [mkRecord InfoLevel "Request started"
                       (ctx0 ++ [FObject "httpRequest" o]) stk]
    /\ field_strings "body" o
       = match B with [] => [] | _ :: _ => [string_of_list_byte B] end
    /\ (forall next w elapsed, exists w' st3,
          ZapRequestLogger logger next w r elapsed st
          = (snd (next (WithLogEntry r1 entry)), w', st3)).
Proof.
  intros Hc HB. pose proof (NewLogEntry_eq _ _ _ st _ _ _ Hc HB) as HN.
  eexists _, _, _, _, _. split; [exact HN|].
  split; [reflexivity|]. split; [reflexivity|]. split.
  - now rewrite field_strings_app, field_strings_request_meta,
      field_strings_body_field.
  - intros next w elapsed.
    rewrite (ZapRequestLogger_eq _ _ next w _ elapsed st _ _ _ Hc HB).
    eauto.
Qed.

(** C5 (amended). For every handler that never calls [WriteHeader], the
    "Request complete" record reports status 200 if the handler called
    [Write] (the first [Write] sends the status line), and status 0 if it
    did not. *)
Theorem C5_status_without_WriteHeader (logger : Logger) (ctx0 : list Field)
  (next : Handler) (w : ResponseWriter) (r : Request) (elapsed : Z)
  (st : State) :
  core logger = ioCore ctx0 ->
  let acts := fst (next (handler_request logger r st)) in
  forallb (fun a => negb (is_WriteHeader a)) acts = true ->
  exists out w' st' prior fields o stk,
    ZapRequestLogger logger next w r elapsed st = (out, w', st')
    /\ sink st'
       = prior ++ [mkRecord InfoLevel "Request complete"
                     (fields ++ [FObject "httpResponse" o]) stk]
    /\ field_ints "status" o
       = [if existsb is_Write acts then 200%Z else 0%Z].
Proof.
  intros Hc acts Hf.
  destruct (ZapRequestLogger_complete _ _ next w r elapsed st Hc)
    as (B & st' & prior & stk & HZ & Hs).
  fold acts in HZ, Hs.
  set (ww := fold_left writer_step acts _) in *.
  destruct (response_object_eq (Status ww) (BytesWritten ww)
              (basicWriter_Header ww) elapsed (written acts)) as (Ho1 & _).
  eexists _, _, st', prior, _, _, stk. split; [exact HZ|].
  split; [exact Hs|]. rewrite Ho1. unfold Status, ww.
  rewrite writer_after_no_WriteHeader by (reflexivity || exact Hf).
  now rewrite existsb_sends_status.
Qed.

(** C6 (amended). For every handler that uses the writer through
    [WriteHeader], [Write] and its header map (the handlers of [Action]),
    whose first call on the status line is [WriteHeader(S)] and whose
    writes put the bytes [R] on the connection ([R] is [written acts], what
    the client receives), the "Request complete" record reports status
    [S], a byte count equal to the length of [R], and a body equal to [R],
    with no body field when [R] is empty. *)
Theorem C6_completion_reports_response (logger : Logger) (ctx0 : list Field)
  (next : Handler) (w : ResponseWriter) (r : Request) (elapsed : Z)
  (st : State) (pre post : list Action) (S : Z) :
  core logger = ioCore ctx0 ->
  fst (next (handler_request logger r st)) = pre ++ DoWriteHeader S :: post ->
  forallb (fun a => negb (sends_status a)) pre = true ->
  let R := written (pre ++ DoWriteHeader S :: post) in
  exists out w' st' prior fields o stk,
    ZapRequestLogger logger next w r elapsed st = (out, w', st')
    /\ rw_sent w' = rw_sent w ++ R
    /\ sink st'
       = prior ++ [mkRecord InfoLevel "Request complete"
                     (fields ++ [FObject "httpResponse" o]) stk]
    /\ field_ints "status" o = [S]
    /\ field_ints "bytes" o = [Z.of_nat (length R)]
    /\ field_strings "body" o
       = match R with [] => [] | _ :: _ => [string_of_list_byte R] end.
Proof.
  intros Hc Hacts Hpre R.
  destruct (ZapRequestLogger_complete _ _ next w r elapsed st Hc)
    as (B & st' & prior & stk & HZ & Hs).
  rewrite Hacts in HZ, Hs. fold R in Hs.
  set (ww := fold_left writer_step (pre ++ DoWriteHeader S :: post) _) in *.
  destruct (writer_after_written (pre ++ DoWriteHeader S :: post)
              (Tee (NewWrapResponseWriter w (ProtoMajor r)) NewBuffer)
              NewBuffer eq_refl) as (_ & Hb & Hsent).
  cbv zeta in Hb, Hsent. fold ww R in Hb, Hsent. cbn in Hb, Hsent.
  destruct (response_object_eq (Status ww) (BytesWritten ww)
              (basicWriter_Header ww) elapsed R) as (Ho1 & Ho2 & Ho3).
  eexists _, _, st', prior, _, _, stk. split; [exact HZ|].
  split; [exact Hsent|]. split; [exact Hs|].
  split; [|split; [|exact Ho3]].
  - rewrite Ho1. unfold Status, ww.
    now rewrite writer_after_WriteHeader.
  - rewrite Ho2. unfold BytesWritten. now rewrite Hb.
Qed.

(** C7 (amended). When the entry's [Panic] method is called with a
    failure value and a stack (the middleware has no [recover] and never
    calls it; the call comes from a recovery middleware further down the
    chain, such as chi's [Recoverer]), exactly one record is added to the
    sink: error level, message "Panic", after the fields of the entry the
    stringified value and the stack given, and without a stack trace of
    zap's own, whatever level the logger attaches one from. *)
Theorem C7_Panic_record (l : zapLogEntry) (fs : list Field) (v : any)
  (stack : list byte) (records : list LogRecord) :
  core (entry_Logger l) = ioCore fs ->
  zapLogEntry_Panic l v stack records
  = records ++
    [mkRecord ErrorLevel "Panic"
       (fs ++ [FString "panic" (Sprintf_v v);
               FString "stack" (string_of_list_byte stack)])
       false].
Proof.
  intros Hl. unfold zapLogEntry_Panic, Logger_log, WithOptions_AddStacktrace.
  cbn [core addStack]. now rewrite Hl.
Qed.

(** C8. For every header mapping and every header of it whose name is
    not one of the three masked ones, the redacted output is the output for
    the headers visited before, then the header's own fields, then the
    output for the headers visited after, where the own fields are: none
    for a header with no value; for one value, the value as it is under the
    lowercased name; for more than one, the one string
    "[v1], [v2], ..., [vN]", the values in their order, under the lowercased
    name. When no two names of the mapping are equal up to case, the own
    fields are all the output has under that lowercased name: a header
    with no value is absent from it. *)
Theorem C8_plain_headers (h before after : http_Header) (k : string)
  (v : list string) :
  h = before ++ (k, v) :: after ->
  sensitive (ToLower k) = false ->
  let out := httpHeaderLog_MarshalLogObject h [] in
  let own :=
    match v with
    | [] => []
    | [v1] => [FString (ToLower k) v1]
    | _ => [FString (ToLower k) (bracketed v)]
    end in
  out = httpHeaderLog_MarshalLogObject before [] ++ own
        ++ httpHeaderLog_MarshalLogObject after []
  /\ (NoDup (map (fun kv => ToLower (fst kv)) h) ->
      forall f, In f out /\ field_key f = ToLower k <-> In f own).
Proof.
  intros Hh Hs out own. subst out.
  rewrite !httpHeaderLog_MarshalLogObject_redact. cbn [app].
  assert (Hown : redact (k, v) = own).
  { unfold redact, own. cbn [fst snd]. rewrite Hs.
    now destruct v as [|v0 [|v1 vs]]. }
  assert (Hin : In (k, v) h) by (subst h; apply in_elt).
  split.
  - subst h. rewrite flat_map_app. cbn [flat_map]. now rewrite Hown.
  - intros Hnd f. rewrite <- Hown. split.
    + intros [Hf Hk]. eapply in_flat_map_redact_unique; eassumption.
    + intros Hf. split; [apply in_flat_map; eauto|].
      now destruct (in_redact_key _ _ Hf).
Qed.

(** C9. For every context (whose pointer, if it holds one, points into
    the heap): [RawLogEntry] and [LogEntry] return, without panic, the
    logger of the entry stored under the key when there is one, and
    otherwise (no value, a value of another type, a nil entry) the no-op
    logger, on which every call leaves the sink as it was; and with no
    entry under the key, [LogEntrySetField] and [LogEntrySetFields] return
    without panic and change nothing. *)
Theorem C9_retrieval_never_fails (ctx : Context) (h : gmap loc zapLogEntry) :
  (forall p, ctx_LogEntry ctx = EntryPtr (Some p) -> is_Some (h !! p)) ->
  (exists l, RawLogEntry ctx h = Ok l /\ LogEntry ctx h = Ok (Sugar l)
     /\ match ctx_LogEntry ctx with
        | EntryPtr (Some p) => exists e, h !! p = Some e /\ l = entry_Logger e
        | EntryPtr None | NoValue | OtherValue => l = NewNop
        end)
  /\ (forall lvl msg fields records,
        Logger_log NewNop lvl msg fields records = records)
  /\ (forall fields, With NewNop fields = NewNop)
  /\ (ctx_LogEntry ctx = NoValue \/ ctx_LogEntry ctx = OtherValue ->
      forall key value fields,
        LogEntrySetField ctx key value h = Ok h
        /\ LogEntrySetFields ctx fields h = Ok h).
Proof.
  intros Hp. split; [|split; [|split]].
  - unfold LogEntry, RawLogEntry, deref.
    destruct (ctx_LogEntry ctx) as [| |[p|]] eqn:E;
      [now exists NewNop | now exists NewNop | | now exists NewNop].
    destruct (Hp p eq_refl) as [e He]. rewrite He.
    exists (entry_Logger e). repeat split. now exists e.
  - reflexivity.
  - reflexivity.
  - unfold LogEntrySetField, LogEntrySetFields.
    intros [-> | ->]; auto.
Qed.

(** [LogEntrySetField] has not the nil check of [RawLogEntry]: on a nil
    entry pointer under the key it dereferences the pointer. *)
Remark LogEntrySetField_nil_entry (ctx : Context) (key : string) (value : any)
  (h : gmap loc zapLogEntry) :
  ctx_LogEntry ctx = EntryPtr None ->
  RawLogEntry ctx h = Ok NewNop
  /\ LogEntrySetField ctx key value h = Panicked nilDereference.
Proof. intros Hc. unfold RawLogEntry, LogEntrySetField. now rewrite Hc. Qed.

(** C10. [RawLogEntry] and [LogEntry] return the logger stored in the
    entry at the time of the call, as a value. After [LogEntrySetField] (or
    [LogEntrySetFields]) has replaced the stored logger with an extended
    one, the logger retrieved before still has the fields it had, and the
    records logged through it do not carry the new fields; a logger
    retrieved after the call, and the record [Write] makes from the stored
    entry, carry them; and so does the completion record of the
    middleware for the fields the handler set. *)
Theorem C10_retrieved_logger_is_a_copy (ctx : Context) (p : loc)
  (h : gmap loc zapLogEntry) (e : zapLogEntry) (fs : list Field)
  (key : string) (value : any) (fields : list (string * any)) :
  ctx_LogEntry ctx = EntryPtr (Some p) ->
  h !! p = Some e ->
  core (entry_Logger e) = ioCore fs ->
  let new1 := [FReflect key value] in
  let newN := map (fun kv => FReflect (fst kv) (snd kv)) fields in
  exists before h1 after1 e1 hN afterN,
    RawLogEntry ctx h = Ok before
    /\ LogEntry ctx h = Ok (Sugar before)
    /\ LogEntrySetField ctx key value h = Ok h1
    /\ LogEntrySetFields ctx fields h = Ok hN
    /\ RawLogEntry ctx h1 = Ok after1
    /\ LogEntry ctx h1 = Ok (Sugar after1)
    /\ RawLogEntry ctx hN = Ok afterN
    /\ core before = ioCore fs
    /\ core after1 = ioCore (fs ++ new1)
    /\ core afterN = ioCore (fs ++ newN)
    /\ (forall lvl msg fields' records,
          Logger_log before lvl msg fields' records
          = records ++ [mkRecord lvl msg (fs ++ fields')
                          (Z.leb (addStack before) lvl)])
    /\ (forall lvl msg fields' records,
          Logger_log after1 lvl msg fields' records
          = records ++ [mkRecord lvl msg ((fs ++ new1) ++ fields')
                          (Z.leb (addStack before) lvl)])
    /\ h1 !! p = Some e1
    /\ (forall status n header elapsed extra records, exists o,
          zapLogEntry_Write e1 status n header elapsed extra records
          = records ++ [mkRecord InfoLevel "Request complete"
                          ((fs ++ new1) ++ [FObject "httpResponse" o])
                          (Z.leb (addStack before) InfoLevel)])
    /\ (forall logger ctx0 next w r elapsed st,
          core logger = ioCore ctx0 ->
          exists out w' st' prior pre o stk,
            ZapRequestLogger logger next w r elapsed st = (out, w', st')
            /\ sink st'
               = prior ++
                 [mkRecord InfoLevel "Request complete"
                    ((pre ++ set_fields
                               (fst (next (handler_request logger r st))))
                     ++ [FObject "httpResponse" o]) stk]).
Proof.
  intros Hc He Hcore new1 newN.
  destruct (fold_extend_core [(key, value)] e fs Hcore) as [Hc1 Hs1].
  destruct (fold_extend_core fields e fs Hcore) as [HcN HsN].
  cbn [fold_left map fst snd] in Hc1, Hs1.
  exists (entry_Logger e), (<[p := extend e (key, value)]> h),
    (entry_Logger (extend e (key, value))), (extend e (key, value)),
    (<[p := fold_left extend fields e]> h),
    (entry_Logger (fold_left extend fields e)).
  unfold LogEntry, RawLogEntry, LogEntrySetField, LogEntrySetFields.
  rewrite Hc. cbn [deref entry_extend]. rewrite He, !lookup_insert_eq.
  rewrite (entry_extend_all_eq p fields h e He).
  repeat (split; [first [reflexivity | assumption]|]).
  split; [|split; [|split; [|split]]].
  - intros lvl msg fields' records. unfold Logger_log. now rewrite Hcore.
  - intros lvl msg fields' records. unfold Logger_log.
    now rewrite Hc1, Hs1.
  - reflexivity.
  - intros status n header elapsed extra records. eexists.
    rewrite (zapLogEntry_Write_eq _ _ _ _ _ _ _ _ Hc1). now rewrite Hs1.
  - intros logger ctx0 next w r elapsed st Hl.
    destruct (ZapRequestLogger_complete _ _ next w r elapsed st Hl)
      as (B & st' & prior & stk & HZ & Hs).
    eexists _, _, st', prior, _, _, stk. split; [exact HZ | exact Hs].
Qed.

(** * Further properties of the package

    ** The header redactor *)

Lemma redact_key_value (kv : string * list string) :
  redact kv
  = if has_values kv
    then [FString (ToLower (fst kv))
            (if sensitive (ToLower (fst kv)) then maskedString
             else match snd kv with
                  | [v] => v
                  | vs => bracketed vs
                  end)]
    else [].
Proof.
  unfold redact, has_values. now destruct (snd kv) as [|v0 [|v1 vs]].
Qed.

Lemma header_output_keys (h : http_Header) :
  map field_key (httpHeaderLog_MarshalLogObject h [])
  = map (fun kv => ToLower (fst kv)) (List.filter has_values h)
  /\ Forall (fun f => exists k v, f = FString k v)
       (httpHeaderLog_MarshalLogObject h []).
Proof.
  rewrite httpHeaderLog_MarshalLogObject_redact. cbn [app].
  induction h as [|kv h [IHk IHf]]; [split; [reflexivity | constructor]|].
  cbn [flat_map List.filter]. rewrite redact_key_value.
  destruct (has_values kv); cbn [app map].
  - split; [now rewrite IHk|]. constructor; [eauto | exact IHf].
  - now split.
Qed.

(** X1. The redactor adds exactly one field for each header that has a
    value and none for the others: the keys of its output are the lowercased
    names of the headers with values, in the order of the iteration, and
    every field of the output is a string field. *)
Theorem X1_header_one_string_field_per_valued_header (h : http_Header) :
  let out := httpHeaderLog_MarshalLogObject h [] in
  map field_key out
  = map (fun kv => ToLower (fst kv)) (List.filter has_values h)
  /\ Forall (fun f => exists k v, f = FString k v) out.
Proof. exact (header_output_keys h). Qed.

Lemma NoDup_map_filter {A B : Type} (f : A -> B) (p : A -> bool) (l : list A) :
  NoDup (map f l) -> NoDup (map f (List.filter p l)).
Proof.
  induction l as [|x l IH]; [trivial|]. cbn [map List.filter].
  intros [Hx Hl]%NoDup_cons. destruct (p x); [|auto].
  cbn [map]. apply NoDup_cons. split; [|auto].
  intros Hin. apply Hx. apply list_elem_of_In in Hin.
  apply list_elem_of_In. apply in_map_iff in Hin as (y & <- & Hy).
  apply filter_In in Hy as [Hy _]. now apply in_map.
Qed.

(** X2. When no two header names are equal up to case, no two fields of
    the redacted output have the same key. *)
Theorem X2_header_keys_distinct (h : http_Header) :
  NoDup (map (fun kv => ToLower (fst kv)) h) ->
  NoDup (map field_key (httpHeaderLog_MarshalLogObject h [])).
Proof.
  intros Hnd.
  destruct (header_output_keys h) as [-> _].
  now apply NoDup_map_filter.
Qed.

(** X3. The order in which [range] visits the header map changes the
    order of the redacted fields and nothing else: for two orders of the
    same entries the outputs are permutations of each other. *)
Theorem X3_header_iteration_order (h h' : http_Header) :
  Permutation h h' ->
  Permutation (httpHeaderLog_MarshalLogObject h [])
    (httpHeaderLog_MarshalLogObject h' []).
Proof.
  intros Hp. rewrite !httpHeaderLog_MarshalLogObject_redact. cbn [app].
  induction Hp as [|x l l' _ IH|x y l|l l' l'' _ IH1 _ IH2]; cbn [flat_map].
  - constructor.
  - now apply Permutation_app_head.
  - rewrite !app_assoc. apply Permutation_app_tail, Permutation_app_comm.
  - now transitivity (flat_map redact l').
Qed.

(** X4. The redacted output does not depend on the values of the masked
    headers: two header maps with the same names in the same order, the
    same values for the names that are not masked, and values or none at
    the same masked names, have the same output. *)
Theorem X4_header_masked_values_do_not_flow (h h' : http_Header) :
  Forall2 same_shape h h' ->
  httpHeaderLog_MarshalLogObject h [] = httpHeaderLog_MarshalLogObject h' [].
Proof.
  intros HF. rewrite !httpHeaderLog_MarshalLogObject_redact. cbn [app].
  induction HF as [|[k v] [k' v'] l l' [Hk Hv] _ IH]; [reflexivity|].
  cbn [flat_map]. rewrite IH. f_equal. cbn [fst snd] in Hk, Hv. subst k'.
  unfold redact. cbn [fst snd].
  destruct (sensitive (ToLower k)).
  - destruct v as [|v0 [|v1 vs]], v' as [|v0' [|v1' vs']]; try reflexivity;
      destruct Hv as [H1 H2]; first [now discriminate H1 | now discriminate H2].
  - now subst v'.
Qed.

(** X5. The redactor only appends to the encoder it is given, and the
    output for a header map in two parts is the output for the first part
    followed by the output for the second. *)
Theorem X5_header_appends (h1 h2 : http_Header) (enc : ObjectEncoder) :
  httpHeaderLog_MarshalLogObject (h1 ++ h2) enc
  = enc ++ httpHeaderLog_MarshalLogObject h1 []
        ++ httpHeaderLog_MarshalLogObject h2 [].
Proof.
  rewrite !httpHeaderLog_MarshalLogObject_redact. cbn [app].
  now rewrite flat_map_app.
Qed.

(** ** The request and response objects *)

Lemma field_objects_app (key : string) (l1 l2 : list Field) :
  field_objects key (l1 ++ l2) = field_objects key l1 ++ field_objects key l2.
Proof.
  induction l1 as [|f l1 IH]; [reflexivity|].
  destruct f as [k v|k v|k v|k v|k v]; cbn; try exact IH.
  destruct (String.eqb k key); cbn; now rewrite IH.
Qed.

(** The object the request marshaler makes, for the bytes it reads. *)
Lemma request_object_eq (r : Request) :
  exists B,
    fst (ReadAll (rc_state (Body r))) = (B, snd (fst (ReadAll (rc_state (Body r)))))
    /\ httpRequestLog_MarshalLogObject r []
       = (request_meta r ++ body_field B, set_Body r (NopCloser (mkBuffer B))).
Proof.
  destruct (ReadAll (rc_state (Body r))) as [[B e] rest] eqn:HB.
  exists B. split; [reflexivity|].
  now rewrite (httpRequestLog_MarshalLogObject_eq r [] B e rest HB).
Qed.

(** X6. Whatever the request and whatever reading its body returns, the
    request object has no two fields with the same key, and it has the
    method, the host, the request URI, the protocol and the remote address
    of the request once each, and one scheme, "https" when the request has
    a TLS state and "http" when it has none. *)
Theorem X6_request_object_schema (r : Request) :
  let o := fst (httpRequestLog_MarshalLogObject r []) in
  NoDup (map field_key o)
  /\ field_strings "method" o = [Method r]
  /\ field_strings "scheme" o = [if TLS r then "https" else "http"]
  /\ field_strings "host" o = [Host r]
  /\ field_strings "requestURI" o = [RequestURI r]
  /\ field_strings "proto" o = [Proto r]
  /\ field_strings "remoteAddr" o = [RemoteAddr r].
Proof.
  destruct (request_object_eq r) as (B & _ & ->). cbn [fst].
  unfold request_meta, body_field.
  destruct (Nat.ltb 0 (length (Header r)));
    destruct (String.eqb (GetReqID (Ctx r)) ""); destruct B as [|b0 B];
    (split; [apply (bool_decide_unpack _); vm_compute; exact I|]);
    repeat split; reflexivity.
Qed.

(** X7. The request marshaler is idempotent on the request it leaves: run
    again (a logger with several cores encodes its fields once per core),
    it adds the same fields and leaves the same request, body included. *)
Theorem X7_request_marshaler_idempotent (r : Request) :
  let first := httpRequestLog_MarshalLogObject r [] in
  httpRequestLog_MarshalLogObject (snd first) [] = first.
Proof.
  destruct (ReadAll (rc_state (Body r))) as [[B e] rest] eqn:HB. cbv zeta.
  rewrite (httpRequestLog_MarshalLogObject_again r [] [] B e rest HB).
  now rewrite (httpRequestLog_MarshalLogObject_eq r [] B e rest HB).
Qed.

(** X8. The optional fields of the request object. The header object is
    there exactly when the header map has an entry, also when no entry has
    a value (the object is then empty); the request id is there exactly
    when the context holds one that is not the empty string. *)
Theorem X8_request_object_optional_fields (r : Request) :
  let o := fst (httpRequestLog_MarshalLogObject r []) in
  field_objects "header" o
  = match Header r with
    | [] => []
    | _ :: _ => [httpHeaderLog_MarshalLogObject (Header r) []]
    end
  /\ (Header r <> [] -> Forall (fun kv => snd kv = []) (Header r) ->
      field_objects "header" o = [[]])
  /\ field_strings "reqId" o
     = match ctx_RequestID (Ctx r) with
       | Some id => if String.eqb id "" then [] else [id]
       | None => []
       end.
Proof.
  destruct (request_object_eq r) as (B & _ & ->). cbn [fst].
  assert (Hh : field_objects "header" (request_meta r ++ body_field B)
               = match Header r with
                 | [] => []
                 | _ :: _ => [httpHeaderLog_MarshalLogObject (Header r) []]
                 end).
  { unfold request_meta, body_field. rewrite !field_objects_app.
    destruct (Header r) as [|kv h]; cbn [length Nat.ltb Nat.leb];
      destruct (String.eqb (GetReqID (Ctx r)) ""); destruct B; reflexivity. }
  split; [exact Hh|]. split.
  - intros Hne Hall. rewrite Hh. destruct (Header r) as [|kv h] eqn:E;
      [congruence|]. f_equal.
    rewrite httpHeaderLog_MarshalLogObject_redact. cbn [app].
    clear E Hh Hne. induction Hall as [|[k v] l Hv _ IH]; [reflexivity|].
    cbn [flat_map]. rewrite IH. cbn [snd] in Hv. subst v. reflexivity.
  - unfold request_meta, body_field, GetReqID.
    rewrite !field_strings_app.
    destruct (Nat.ltb 0 (length (Header r)));
      destruct (ctx_RequestID (Ctx r)) as [id|]; cbn [String.eqb];
      [destruct (String.eqb id "") | | destruct (String.eqb id "") | ];
      destruct B; reflexivity.
Qed.

(** X9. The body is logged without loss: when the request object has a
    body field, the bytes of that string are the bytes the marshaler read,
    which are the bytes of the body it leaves for the handler. *)
Theorem X9_logged_body_is_the_body_left (r : Request) (s : string) :
  let first := httpRequestLog_MarshalLogObject r [] in
  In s (field_strings "body" (fst first)) ->
  Body (snd first) = NopCloser (mkBuffer (list_byte_of_string s)).
Proof.
  destruct (request_object_eq r) as (B & _ & ->). cbn [fst snd].
  rewrite field_strings_app, field_strings_request_meta,
    field_strings_body_field. cbn [app set_Body Body].
  destruct B as [|b0 B]; [intros []|]. intros [<-|[]].
  now rewrite list_byte_of_string_of_list_byte.
Qed.

Lemma field_durations_app (key : string) (l1 l2 : list Field) :
  field_durations key (l1 ++ l2)
  = field_durations key l1 ++ field_durations key l2.
Proof.
  induction l1 as [|f l1 IH]; [reflexivity|].
  destruct f as [k v|k v|k v|k v|k v]; cbn; try exact IH.
  destruct (String.eqb k key); cbn; now rewrite IH.
Qed.

(** X10. Whatever the response log holds, the response object has no two
    fields with the same key; it has the status, the byte count and the
    elapsed time once each; its header object is there exactly when the
    header map has an entry; and it has a body field only for an
    [extraLogEntry] with a body that is not empty: an [extra] of another
    type gives none. *)
Theorem X10_response_object_schema (rl : httpResponseLog) :
  let o := httpResponseLog_MarshalLogObject rl [] in
  NoDup (map field_key o)
  /\ field_ints "status" o = [resp_Status rl]
  /\ field_ints "bytes" o = [resp_Bytes rl]
  /\ field_durations "elapsed" o = [resp_Elapsed rl]
  /\ field_objects "header" o
     = match resp_Header rl with
       | [] => []
       | _ :: _ => [httpHeaderLog_MarshalLogObject (resp_Header rl) []]
       end
  /\ field_strings "body" o
     = match resp_Extra rl with
       | extraLogEntry (b :: body) => [string_of_list_byte (b :: body)]
       | _ => []
       end.
Proof.
  destruct rl as [status n header elapsed extra].
  unfold httpResponseLog_MarshalLogObject, AddInt, AddDuration, AddString,
    AddObject_header.
  cbn [resp_Status resp_Bytes resp_Header resp_Elapsed resp_Extra app].
  destruct header as [|kv h]; cbn [length Nat.ltb Nat.leb];
    destruct extra as [[|b0 body]|]; cbn [length Nat.eqb negb app];
    (split; [apply (bool_decide_unpack _); vm_compute; exact I|]);
    repeat split; reflexivity.
Qed.

(** ** The entry in the context *)

Lemma entry_extend_all_app (p : option loc) (fs1 fs2 : list (string * any)) :
  forall h,
  entry_extend_all p (fs1 ++ fs2) h
  = match entry_extend_all p fs1 h with
    | Ok h1 => entry_extend_all p fs2 h1
    | Panicked v => Panicked v
    end.
Proof.
  induction fs1 as [|[k v] fs1 IH]; intros h; [reflexivity|].
  cbn [app entry_extend_all]. destruct (entry_extend p k v h); [apply IH|].
  reflexivity.
Qed.

(** X11. [LogEntrySetFields] composes, panics included: setting the
    fields of two maps one after the other is setting the fields of both
    in that order, and setting one field with it is [LogEntrySetField]. *)
Theorem X11_LogEntrySetFields_composes (ctx : Context)
  (fs1 fs2 : list (string * any)) (key : string) (value : any)
  (h : gmap loc zapLogEntry) :
  LogEntrySetFields ctx (fs1 ++ fs2) h
  = match LogEntrySetFields ctx fs1 h with
    | Ok h1 => LogEntrySetFields ctx fs2 h1
    | Panicked v => Panicked v
    end
  /\ LogEntrySetFields ctx [(key, value)] h = LogEntrySetField ctx key value h.
Proof.
  unfold LogEntrySetFields, LogEntrySetField. split.
  - destruct (ctx_LogEntry ctx); [reflexivity | reflexivity |].
    apply entry_extend_all_app.
  - destruct (ctx_LogEntry ctx); [reflexivity | reflexivity |].
    cbn [entry_extend_all]. now destruct (entry_extend p key value h).
Qed.

Lemma entry_extend_frame (p : option loc) (key : string) (value : any)
  (h h' : gmap loc zapLogEntry) :
  entry_extend p key value h = Ok h' ->
  exists l e e', p = Some l /\ h !! l = Some e /\ h' = <[l := e']> h
    /\ addStack (entry_Logger e') = addStack (entry_Logger e).
Proof.
  unfold entry_extend, deref. destruct p as [l|]; [|discriminate].
  destruct (h !! l) as [e|] eqn:He; [|discriminate]. intros [= <-].
  exists l, e, (mkEntry (With (entry_Logger e) [zap_Reflect key value])).
  split; [reflexivity|]. split; [exact He|]. split; [reflexivity|].
  unfold With. cbn [entry_Logger]. now destruct (core (entry_Logger e)).
Qed.

Lemma entry_extend_all_frame (p : option loc) (fields : list (string * any)) :
  forall h h', entry_extend_all p fields h = Ok h' ->
  dom h' = dom h
  /\ (forall q, p <> Some q -> h' !! q = h !! q)
  /\ (forall q e, p = Some q -> h !! q = Some e ->
      exists e', h' !! q = Some e'
        /\ addStack (entry_Logger e') = addStack (entry_Logger e)).
Proof.
  induction fields as [|[k v] fields IH]; intros h h'; cbn [entry_extend_all].
  - intros [= <-]. repeat split; eauto.
  - destruct (entry_extend p k v h) as [h1|] eqn:E; [|discriminate].
    intros Hrest. destruct (IH _ _ Hrest) as (Hd & Hf & Hs).
    destruct (entry_extend_frame _ _ _ _ _ E) as (l & e & e' & -> & He & -> & Ha).
    split; [|split].
    + rewrite Hd. apply dom_insert_lookup_L. eauto.
    + intros q Hq. rewrite Hf by exact Hq. apply lookup_insert_ne. congruence.
    + intros q e0 [= <-] He0. rewrite He in He0. injection He0 as <-.
      destruct (Hs l e' eq_refl (lookup_insert_eq _ _ _)) as (e2 & H2 & Ha2).
      exists e2. split; [exact H2 | congruence].
Qed.

(** X12. [LogEntrySetField] and [LogEntrySetFields] change nothing but the
    logger of the entry the context points to: the heap has the same
    entries afterwards, every other entry is as it was, and the entry of
    the context attaches a stack trace from the same level as before. *)
Theorem X12_setters_touch_only_the_entry (ctx : Context)
  (fields : list (string * any)) (h h' : gmap loc zapLogEntry) :
  LogEntrySetFields ctx fields h = Ok h' ->
  dom h' = dom h
  /\ (forall q, ctx_LogEntry ctx <> EntryPtr (Some q) -> h' !! q = h !! q)
  /\ (forall q e, ctx_LogEntry ctx = EntryPtr (Some q) -> h !! q = Some e ->
      exists e', h' !! q = Some e'
        /\ addStack (entry_Logger e') = addStack (entry_Logger e)).
Proof.
  unfold LogEntrySetFields.
  destruct (ctx_LogEntry ctx) as [| |p] eqn:Hc.
  - intros [= <-]. split; [reflexivity|]. split; [reflexivity|].
    intros q e Hq. discriminate Hq.
  - intros [= <-]. split; [reflexivity|]. split; [reflexivity|].
    intros q e Hq. discriminate Hq.
  - intros Hall. destruct (entry_extend_all_frame _ _ _ _ Hall) as (Hd & Hf & Hs).
    split; [exact Hd|]. split.
    + intros q Hq. apply Hf. congruence.
    + intros q e [= ->]. now apply Hs.
Qed.

Lemma extend_nop (e : zapLogEntry) (kv : string * any) :
  core (entry_Logger e) = NopCore -> extend e kv = e.
Proof. intros He. unfold extend, With. rewrite He. now destruct e. Qed.

Lemma fold_extend_nop (fields : list (string * any)) (e : zapLogEntry) :
  core (entry_Logger e) = NopCore -> fold_left extend fields e = e.
Proof.
  intros He. induction fields as [|kv fields IH]; [reflexivity|].
  cbn [fold_left]. now rewrite extend_nop.
Qed.

(** X13. On an entry whose logger is the no-op logger (the middleware was
    given [zap.NewNop()]), the setters drop the fields: the heap is left as
    it was. *)
Theorem X13_setters_on_noop_entry (ctx : Context) (p : loc)
  (h : gmap loc zapLogEntry) (e : zapLogEntry) (key : string) (value : any)
  (fields : list (string * any)) :
  ctx_LogEntry ctx = EntryPtr (Some p) ->
  h !! p = Some e ->
  core (entry_Logger e) = NopCore ->
  LogEntrySetField ctx key value h = Ok h
  /\ LogEntrySetFields ctx fields h = Ok h.
Proof.
  intros Hc He Hn. unfold LogEntrySetField, LogEntrySetFields. rewrite Hc.
  split.
  - unfold entry_extend, deref. rewrite He.
    change (mkEntry (With (entry_Logger e) [zap_Reflect key value]))
      with (extend e (key, value)).
    rewrite extend_nop by exact Hn. now rewrite insert_id.
  - rewrite (entry_extend_all_eq p fields h e He).
    rewrite fold_extend_nop by exact Hn. now rewrite insert_id.
Qed.

(** ** The middleware with any logger *)

(** What [NewLogEntry] returns, for every logger. *)
Lemma NewLogEntry_any (logger : Logger) (r : Request) (st : State) :
  exists r1 l1,
    NewLogEntry (mkFormatter logger) r st
    = (fresh (dom (heap st)), r1,
       mkState (<[fresh (dom (heap st)) := mkEntry l1]> (heap st))
         (Logger_log l1 InfoLevel "Request started" [] (sink st)))
    /\ addStack l1 = addStack logger
    /\ match core logger with
       | NopCore => l1 = logger /\ r1 = r
       | ioCore ctx0 =>
           core l1
           = ioCore (ctx0 ++ [FObject "httpRequest"
                                (fst (httpRequestLog_MarshalLogObject r []))])
           /\ r1 = snd (httpRequestLog_MarshalLogObject r [])
       end.
Proof.
  unfold NewLogEntry, With_Object. cbn [fmt_Logger].
  destruct (core logger) as [|ctx0] eqn:Hc.
  - exists r, logger. auto.
  - destruct (httpRequestLog_MarshalLogObject r []) as [o r1].
    eexists r1, _. split; [reflexivity|]. cbn [core addStack fst snd]. auto.
Qed.

(** The run of the middleware in closed form, for every logger. *)
Lemma ZapRequestLogger_any (logger : Logger) (next : Handler)
  (w : ResponseWriter) (r : Request) (elapsed : Z) (st : State)
  (r1 : Request) (l1 : Logger) (records : list LogRecord) :
  NewLogEntry (mkFormatter logger) r st
  = (fresh (dom (heap st)), r1,
     mkState (<[fresh (dom (heap st)) := mkEntry l1]> (heap st)) records) ->
  let p := fresh (dom (heap st)) in
  let acts := fst (next (WithLogEntry r1 p)) in
  let ww := fold_left writer_step acts
              (Tee (NewWrapResponseWriter w (ProtoMajor r1)) NewBuffer) in
  let en := fold_left entry_step acts (mkEntry l1) in
  ZapRequestLogger logger next w r elapsed st
  = (snd (next (WithLogEntry r1 p)), bw_ResponseWriter ww,
     mkState (<[p := en]> (heap st))
       (zapLogEntry_Write en (Status ww) (BytesWritten ww)
          (basicWriter_Header ww) elapsed (extraLogEntry (written acts))
          (records_after acts (mkEntry l1) records))).
Proof.
  intros HN. cbv zeta. unfold ZapRequestLogger. rewrite HN.
  unfold ServeHTTP. set (p := fresh (dom (heap st))).
  set (rq := WithLogEntry r1 p).
  destruct (next rq) as [acts out]. cbn [fst snd].
  rewrite (run_attached (Ctx rq) p acts eq_refl _ _ (mkEntry l1))
    by apply lookup_insert_eq.
  cbn [heap sink].
  destruct (writer_after_written acts
              (Tee (NewWrapResponseWriter w (ProtoMajor r1)) NewBuffer)
              NewBuffer eq_refl) as (Ht & _).
  cbv zeta in Ht. rewrite Ht. cbn [NewBuffer unread app].
  rewrite ReadAll_Buffer.
  unfold deref. rewrite insert_insert_eq, lookup_insert_eq. reflexivity.
Qed.

Lemma handler_request_any (logger : Logger) (r : Request) (st : State)
  (r1 : Request) (st1 : State) :
  NewLogEntry (mkFormatter logger) r st = (fresh (dom (heap st)), r1, st1) ->
  handler_request logger r st = WithLogEntry r1 (fresh (dom (heap st))).
Proof. intros HN. unfold handler_request. now rewrite HN. Qed.

Lemma entry_step_nop (e : zapLogEntry) (a : Action) :
  core (entry_Logger e) = NopCore -> entry_step e a = e.
Proof.
  intros He. destruct a; cbn [entry_step]; try reflexivity.
  - now apply extend_nop.
  - now apply fold_extend_nop.
Qed.

Lemma records_after_nop (acts : list Action) (e : zapLogEntry)
  (records : list LogRecord) :
  core (entry_Logger e) = NopCore ->
  forallb (fun a => negb (is_LogVia a)) acts = true ->
  records_after acts e records = records.
Proof.
  intros He. revert records.
  induction acts as [|a acts IH]; intros records Hf; [reflexivity|].
  cbn [forallb] in Hf. apply andb_prop in Hf as [Ha Hf].
  cbn [records_after]. rewrite entry_step_nop by exact He.
  rewrite IH by exact Hf.
  destruct a; cbn in Ha; try discriminate; cbn [records_step];
    unfold zapLogEntry_Panic, WithOptions_AddStacktrace, Logger_log;
    cbn [core]; now rewrite ?He.
Qed.

(** X14. With the no-op logger ([zap.NewNop()]) the middleware is silent
    and leaves the request alone: the request marshaler never runs, so the
    handler is served with the body the request came with; the logger the
    handler retrieves is the no-op logger it was given; and, unless the
    handler logs through a logger of its own, the sink is after the run
    what it was before. *)
Theorem X14_noop_logger_is_silent (logger : Logger) (next : Handler)
  (w : ResponseWriter) (r : Request) (elapsed : Z) (st : State) :
  core logger = NopCore ->
  Body (handler_request logger r st) = Body r
  /\ RawLogEntry (Ctx (handler_request logger r st))
       (heap (snd (NewLogEntry (mkFormatter logger) r st))) = Ok logger
  /\ (forallb (fun a => negb (is_LogVia a))
        (fst (next (handler_request logger r st))) = true ->
      sink (snd (ZapRequestLogger logger next w r elapsed st)) = sink st).
Proof.
  intros Hc.
  destruct (NewLogEntry_any logger r st) as (r1 & l1 & HN & _ & Hl).
  rewrite Hc in Hl. destruct Hl as [-> ->].
  rewrite (handler_request_any _ _ _ _ _ HN), HN. cbn [snd heap].
  split; [reflexivity|]. split.
  - unfold RawLogEntry, deref. cbn [WithLogEntry WithContext Ctx ctx_LogEntry].
    now rewrite lookup_insert_eq.
  - intros Hf.
    rewrite (ZapRequestLogger_any _ next w _ elapsed _ _ _ _ HN).
    cbn [snd sink]. unfold zapLogEntry_Write, Logger_log.
    assert (He : forall acts,
              fold_left entry_step acts (mkEntry logger) = mkEntry logger).
    { induction acts as [|a acts IH]; [reflexivity|]. cbn [fold_left].
      now rewrite entry_step_nop. }
    rewrite He. cbn [entry_Logger]. rewrite Hc.
    now rewrite records_after_nop by (exact Hc || exact Hf).
Qed.

(** X15. For every logger the middleware is transparent to the handler's
    end and to the client: it ends the way the handler ends (a return is a
    return, a panic leaves the middleware with the value it was raised
    with), and the connection has received, after what it had before, the
    bytes the handler wrote. *)
Theorem X15_middleware_transparent (logger : Logger) (next : Handler)
  (w : ResponseWriter) (r : Request) (elapsed : Z) (st : State) :
  let '(out, w', _) := ZapRequestLogger logger next w r elapsed st in
  out = snd (next (handler_request logger r st))
  /\ rw_sent w'
     = rw_sent w ++ written (fst (next (handler_request logger r st))).
Proof.
  destruct (NewLogEntry_any logger r st) as (r1 & l1 & HN & _ & _).
  rewrite (handler_request_any _ _ _ _ _ HN).
  rewrite (ZapRequestLogger_any _ next w _ elapsed _ _ _ _ HN).
  split; [reflexivity|].
  destruct (writer_after_written (fst (next (WithLogEntry r1 (fresh (dom (heap st))))))
              (Tee (NewWrapResponseWriter w (ProtoMajor r1)) NewBuffer)
              NewBuffer eq_refl) as (_ & _ & Hs).
  exact Hs.
Qed.

(** X16. The state of a request is its own: a run of the middleware
    allocates one entry, at a pointer the heap did not have, and leaves
    every entry the heap had as it was. *)
Theorem X16_one_fresh_entry_per_request (logger : Logger) (next : Handler)
  (w : ResponseWriter) (r : Request) (elapsed : Z) (st : State) :
  let st' := snd (ZapRequestLogger logger next w r elapsed st) in
  let p := fresh (dom (heap st)) in
  heap st !! p = None
  /\ (exists e, heap st' = <[p := e]> (heap st))
  /\ (forall q e, heap st !! q = Some e -> heap st' !! q = Some e).
Proof.
  destruct (NewLogEntry_any logger r st) as (r1 & l1 & HN & _ & _).
  rewrite (ZapRequestLogger_any _ next w _ elapsed _ _ _ _ HN).
  cbn [snd heap].
  assert (Hfresh : heap st !! fresh (dom (heap st)) = None)
    by (apply not_elem_of_dom, is_fresh).
  split; [exact Hfresh|]. split; [eauto|].
  intros q e Hq. rewrite lookup_insert_ne; [exact Hq|]. congruence.
Qed.

Lemma zapLogEntry_Panic_eq (l : zapLogEntry) (fs : list Field) (v : any)
  (stack : list byte) (records : list LogRecord) :
  core (entry_Logger l) = ioCore fs ->
  zapLogEntry_Panic l v stack records
  = records ++
    [mkRecord ErrorLevel "Panic"
       (fs ++ [FString "panic" (Sprintf_v v);
               FString "stack" (string_of_list_byte stack)])
       false].
Proof.
  intros Hl. unfold zapLogEntry_Panic, Logger_log, WithOptions_AddStacktrace.
  cbn [core addStack]. now rewrite Hl.
Qed.

Lemma entry_step_core (e : zapLogEntry) (a : Action) (fs : list Field) :
  core (entry_Logger e) = ioCore fs ->
  core (entry_Logger (entry_step e a)) = ioCore (fs ++ set_fields_by a).
Proof.
  intros He. destruct (entry_after_core [a] e fs He) as [Hc _].
  cbn [fold_left] in Hc. rewrite Hc. unfold set_fields. cbn [flat_map].
  now rewrite app_nil_r.
Qed.

Lemma records_step_prefix (e : zapLogEntry) (a : Action) (fs : list Field)
  (records : list LogRecord) :
  core (entry_Logger e) = ioCore fs ->
  is_LogVia a = false ->
  exists new, records_step e a records = records ++ new
    /\ Forall (fun rec => exists more, Fields rec = fs ++ more) new.
Proof.
  intros He Ha.
  destruct a; cbn in Ha; try discriminate; cbn [records_step];
    unfold zapLogEntry_Panic, WithOptions_AddStacktrace, Logger_log;
    cbn [core]; rewrite ?He;
    try (exists []; split; [now rewrite app_nil_r | constructor]);
    (eexists; split; [reflexivity|]; repeat constructor; cbn [Fields]; eauto).
Qed.

Lemma records_after_prefix (base : list Field) (acts : list Action) :
  forall e x records,
  core (entry_Logger e) = ioCore (base ++ x) ->
  forallb (fun a => negb (is_LogVia a)) acts = true ->
  exists new, records_after acts e records = records ++ new
    /\ Forall (fun rec => exists more, Fields rec = base ++ more) new.
Proof.
  induction acts as [|a acts IH]; intros e x records He Hf.
  - exists []. split; [now rewrite app_nil_r | constructor].
  - cbn [forallb] in Hf. apply andb_prop in Hf as [Ha Hf].
    apply negb_true_iff in Ha. cbn [records_after].
    destruct (records_step_prefix e a _ records He Ha) as (n1 & -> & H1).
    pose proof (entry_step_core e a _ He) as He'.
    rewrite <- app_assoc in He'.
    destruct (IH _ _ (records ++ n1) He' Hf) as (n2 & -> & H2).
    exists (n1 ++ n2). split; [now rewrite app_assoc|].
    apply Forall_app. split; [|exact H2].
    eapply Forall_impl; [exact H1|]. cbn beta.
    intros rec [more ->]. rewrite <- app_assoc. eauto.
Qed.

(** X17. Every record of a request carries the request snapshot. With a
    logger that writes, and a handler that logs through the entry of its
    context only, the records the run adds to the sink are "Request
    started" followed by records that all begin with the fields of that
    first record: the records the handler logs, a "Panic" record made
    through the entry, and the completion record that ends the list. *)
Theorem X17_records_share_the_snapshot (logger : Logger) (ctx0 : list Field)
  (next : Handler) (w : ResponseWriter) (r : Request) (elapsed : Z)
  (st : State) :
  core logger = ioCore ctx0 ->
  forallb (fun a => negb (is_LogVia a))
    (fst (next (handler_request logger r st))) = true ->
  exists started during complete,
    sink (snd (ZapRequestLogger logger next w r elapsed st))
    = sink st ++ started :: during ++ [complete]
    /\ Message started = "Request started"
    /\ Message complete = "Request complete"
    /\ (exists o, In (FObject "httpRequest" o) (Fields started))
    /\ Forall (fun rec => exists more, Fields rec = Fields started ++ more)
         (during ++ [complete]).
Proof.
  intros Hc Hf.
  destruct (NewLogEntry_any logger r st) as (r1 & l1 & HN & _ & Hl).
  rewrite Hc in Hl. destruct Hl as [Hl1 _].
  rewrite (handler_request_any _ _ _ _ _ HN) in Hf.
  rewrite (ZapRequestLogger_any _ next w _ elapsed _ _ _ _ HN).
  cbn [snd sink]. unfold Logger_log at 1. rewrite Hl1.
  set (base := ctx0 ++ [FObject "httpRequest" _]) in *.
  set (acts := fst (next _)) in *.
  assert (Hl1' : core (entry_Logger (mkEntry l1)) = ioCore (base ++ []))
    by (now rewrite app_nil_r).
  destruct (records_after_prefix base acts (mkEntry l1) []
              (sink st ++ [mkRecord InfoLevel "Request started" (base ++ [])
                             (Z.leb (addStack l1) InfoLevel)]) Hl1' Hf)
    as (during & -> & Hd).
  destruct (entry_after_core acts (mkEntry l1) base Hl1) as [Hen _].
  rewrite (zapLogEntry_Write_eq _ _ _ _ _ _ _ _ Hen).
  eexists _, during, _. split.
  { rewrite <- !app_assoc. cbn [app]. reflexivity. }
  cbn [Message Fields]. rewrite app_nil_r.
  split; [reflexivity|]. split; [reflexivity|]. split.
  { eexists. subst base. apply in_or_app. right. left. reflexivity. }
  apply Forall_app. split; [exact Hd|].
  constructor; [|constructor]. cbn [Fields]. eexists. reflexivity.
Qed.

(** X18. What [NewLogEntry] attaches, [RawLogEntry] retrieves: on the
    context of the request the handler is served with, it returns without
    panic a logger that attaches a stack trace from the same level as the
    logger the middleware was given, and that is that logger itself when it
    is the no-op one, and otherwise carries that logger's fields followed
    by the request object; the request id of the context is the one the
    request came with. *)
Theorem X18_handler_retrieves_request_logger (logger : Logger) (r : Request)
  (st : State) :
  let rq := handler_request logger r st in
  let st1 := snd (NewLogEntry (mkFormatter logger) r st) in
  exists l,
    RawLogEntry (Ctx rq) (heap st1) = Ok l
    /\ LogEntry (Ctx rq) (heap st1) = Ok (Sugar l)
    /\ addStack l = addStack logger
    /\ match core logger with
       | NopCore => l = logger
       | ioCore ctx0 =>
           core l
           = ioCore (ctx0 ++ [FObject "httpRequest"
                                (fst (httpRequestLog_MarshalLogObject r []))])
       end
    /\ GetReqID (Ctx rq) = GetReqID (Ctx r).
Proof.
  destruct (NewLogEntry_any logger r st) as (r1 & l1 & HN & Ha & Hl).
  cbv zeta. rewrite (handler_request_any _ _ _ _ _ HN), HN. cbn [snd heap].
  exists l1. unfold LogEntry, RawLogEntry, deref.
  cbn [WithLogEntry WithContext Ctx ctx_LogEntry]. rewrite lookup_insert_eq.
  split; [reflexivity|]. split; [reflexivity|]. split; [exact Ha|].
  unfold GetReqID. cbn [ctx_RequestID].
  destruct (core logger) as [|ctx0].
  - destruct Hl as [-> ->]. auto.
  - destruct Hl as [Hl ->]. split; [exact Hl|].
    destruct (request_object_eq r) as (B & _ & ->). reflexivity.
Qed.

Lemma records_after_app_acts (a1 a2 : list Action) :
  forall e records,
  records_after (a1 ++ a2) e records
  = records_after a2 (fold_left entry_step a1 e) (records_after a1 e records).
Proof.
  induction a1 as [|a a1 IH]; intros e records; [reflexivity|].
  cbn [app records_after fold_left]. apply IH.
Qed.

(** X19. A panic recovered further down the chain. When the calls the
    middleware sees end with the two calls chi's [Recoverer] makes on
    recovering a panic, the entry's [Panic] and then [WriteHeader(500)],
    and no call before them has sent the status line, then with a logger
    that writes the sink ends with the "Panic" record, at error level and
    without a stack trace of zap's own, directly followed by the completion
    record, which has the same leading fields and reports status 500. *)
Theorem X19_recovered_panic_then_complete (logger : Logger)
  (ctx0 : list Field) (next : Handler) (w : ResponseWriter) (r : Request)
  (elapsed : Z) (st : State) (pre : list Action) (v : any)
  (stack : list byte) :
  core logger = ioCore ctx0 ->
  fst (next (handler_request logger r st))
  = pre ++ [DoEntryPanic v stack; DoWriteHeader 500] ->
  forallb (fun a => negb (sends_status a)) pre = true ->
  exists before fields o stk,
    sink (snd (ZapRequestLogger logger next w r elapsed st))
    = before ++
      [mkRecord ErrorLevel "Panic"
         (fields ++ [FString "panic" (Sprintf_v v);
                     FString "stack" (string_of_list_byte stack)]) false;
       mkRecord InfoLevel "Request complete"
         (fields ++ [FObject "httpResponse" o]) stk]
    /\ field_ints "status" o = [500%Z].
Proof.
  intros Hc Hacts Hpre.
  destruct (NewLogEntry_any logger r st) as (r1 & l1 & HN & _ & Hl).
  rewrite Hc in Hl. destruct Hl as [Hl1 _].
  rewrite (handler_request_any _ _ _ _ _ HN) in Hacts.
  rewrite (ZapRequestLogger_any _ next w _ elapsed _ _ _ _ HN).
  cbn [snd sink]. rewrite Hacts.
  set (base := ctx0 ++ [FObject "httpRequest" _]) in *.
  set (ww := fold_left writer_step _ _).
  destruct (entry_after_core pre (mkEntry l1) base Hl1) as [Hpre_core _].
  destruct (entry_after_core (pre ++ [DoEntryPanic v stack; DoWriteHeader 500])
              (mkEntry l1) base Hl1) as [Hen _].
  assert (Hsf : set_fields (pre ++ [DoEntryPanic v stack; DoWriteHeader 500])
                = set_fields pre).
  { unfold set_fields. rewrite flat_map_app. cbn. now rewrite app_nil_r. }
  rewrite Hsf in Hen.
  rewrite (zapLogEntry_Write_eq _ _ _ _ _ _ _ _ Hen).
  rewrite records_after_app_acts. cbn [records_after records_step entry_step].
  rewrite (zapLogEntry_Panic_eq _ _ v stack _ Hpre_core).
  destruct (response_object_eq (Status ww) (BytesWritten ww)
              (basicWriter_Header ww) elapsed
              (written (pre ++ [DoEntryPanic v stack; DoWriteHeader 500])))
    as (Ho & _).
  eexists _, _, _, _. split.
  { rewrite <- app_assoc. cbn [app]. reflexivity. }
  rewrite Ho. unfold Status, ww.
  change (pre ++ [DoEntryPanic v stack; DoWriteHeader 500])
    with (pre ++ [DoEntryPanic v stack] ++ DoWriteHeader 500 :: []).
  rewrite app_assoc. rewrite writer_after_WriteHeader; [reflexivity.. |].
  rewrite forallb_app, Hpre. reflexivity.
Qed.

(** ** The completion record for every handler *)

Lemma writer_after_header (acts : list Action) :
  forall ww,
  basicWriter_Header (fold_left writer_step acts ww)
  = final_header acts (basicWriter_Header ww).
Proof.
  unfold final_header.
  induction acts as [|a acts IH]; intros ww; [reflexivity|].
  cbn [fold_left]. rewrite IH. f_equal.
  destruct ww as [[hd stt snt] wh c b te].
  destruct a; cbn [writer_step]; try reflexivity.
  - unfold basicWriter_WriteHeader, ResponseWriter_WriteHeader,
      basicWriter_Header. destruct wh, stt; reflexivity.
  - unfold basicWriter_Write, maybeWriteHeader, basicWriter_WriteHeader,
      ResponseWriter_Write, ResponseWriter_WriteHeader, basicWriter_Header.
    destruct wh, stt, te; reflexivity.
Qed.

Lemma writer_after_first_status (acts : list Action) :
  forall ww, wroteHeader ww = false -> code ww = 0%Z ->
  code (fold_left writer_step acts ww) = first_status acts.
Proof.
  induction acts as [|a acts IH]; intros ww Hw Hc; [exact Hc|].
  cbn [fold_left].
  destruct a; cbn [first_status];
    try (cbn [writer_step]; now apply IH).
  - destruct (writer_step_WriteHeader ww status Hw) as [Hw1 Hc1].
    destruct (writer_after_wroteHeader acts _ Hw1) as [_ Hc2].
    cbv zeta in *. congruence.
  - destruct (writer_step_Write ww buf accepted Hw) as [Hw1 Hc1].
    destruct (writer_after_wroteHeader acts _ Hw1) as [_ Hc2].
    cbv zeta in *. congruence.
Qed.

(** X20. For every handler, however it ends, the completion record
    reports what the wrapper saw: as status the one of the handler's first
    call on the status line (the code of the first [WriteHeader], or 200
    when a [Write] comes first; later calls of [WriteHeader] change
    nothing) and 0 when there is no such call; as byte count the length of
    the bytes written; and as body those bytes, with no body field when
    there are none. *)
Theorem X20_completion_for_every_handler (logger : Logger)
  (ctx0 : list Field) (next : Handler) (w : ResponseWriter) (r : Request)
  (elapsed : Z) (st : State) :
  core logger = ioCore ctx0 ->
  let acts := fst (next (handler_request logger r st)) in
  exists before fields o stk,
    sink (snd (ZapRequestLogger logger next w r elapsed st))
    = before ++ [mkRecord InfoLevel "Request complete"
                   (fields ++ [FObject "httpResponse" o]) stk]
    /\ field_ints "status" o = [first_status acts]
    /\ field_ints "bytes" o = [Z.of_nat (length (written acts))]
    /\ field_strings "body" o
       = match written acts with
         | [] => []
         | _ :: _ => [string_of_list_byte (written acts)]
         end
    /\ field_durations "elapsed" o = [elapsed].
Proof.
  intros Hc acts.
  destruct (ZapRequestLogger_complete _ _ next w r elapsed st Hc)
    as (B & st' & prior & stk & HZ & Hs).
  fold acts in HZ, Hs. rewrite HZ. cbn [snd].
  set (ww := fold_left writer_step acts _) in *.
  destruct (response_object_eq (Status ww) (BytesWritten ww)
              (basicWriter_Header ww) elapsed (written acts))
    as (Ho1 & Ho2 & Ho3).
  destruct (writer_after_written acts
              (Tee (NewWrapResponseWriter w (ProtoMajor r)) NewBuffer)
              NewBuffer eq_refl) as (_ & Hb & _).
  cbv zeta in Hb. fold ww in Hb. cbn in Hb.
  eexists prior, _, _, stk. split; [exact Hs|].
  split; [|split; [|split; [exact Ho3|]]].
  - rewrite Ho1. unfold Status, ww.
    now rewrite writer_after_first_status.
  - rewrite Ho2. unfold BytesWritten. now rewrite Hb.
  - unfold httpResponseLog_MarshalLogObject, AddInt, AddDuration, AddString,
      AddObject_header.
    cbn [resp_Status resp_Bytes resp_Header resp_Elapsed resp_Extra app].
    destruct (Nat.ltb 0 (length (basicWriter_Header ww)));
      destruct (written acts); reflexivity.
Qed.

(** X21. The response headers are read when the handler has ended: the
    header object of the completion record is the redaction of the header
    map as the handler's last change left it (of the map the writer came
    with, when the handler changed nothing), and there is no header object
    when that map is empty. *)
Theorem X21_completion_logs_final_headers (logger : Logger)
  (ctx0 : list Field) (next : Handler) (w : ResponseWriter) (r : Request)
  (elapsed : Z) (st : State) :
  core logger = ioCore ctx0 ->
  let h := final_header (fst (next (handler_request logger r st)))
             (rw_Header w) in
  exists before fields o stk,
    sink (snd (ZapRequestLogger logger next w r elapsed st))
    = before ++ [mkRecord InfoLevel "Request complete"
                   (fields ++ [FObject "httpResponse" o]) stk]
    /\ field_objects "header" o
       = match h with
         | [] => []
         | _ :: _ => [httpHeaderLog_MarshalLogObject h []]
         end.
Proof.
  intros Hc h.
  destruct (ZapRequestLogger_complete _ _ next w r elapsed st Hc)
    as (B & st' & prior & stk & HZ & Hs).
  rewrite HZ. cbn [snd].
  eexists prior, _, _, stk. split; [exact Hs|].
  rewrite writer_after_header.
  change (basicWriter_Header
            (Tee (NewWrapResponseWriter w (ProtoMajor r)) NewBuffer))
    with (rw_Header w).
  fold h.
  unfold httpResponseLog_MarshalLogObject, AddInt, AddDuration, AddString,
    AddObject_header.
  cbn [resp_Status resp_Bytes resp_Header resp_Elapsed resp_Extra app].
  destruct h as [|kv h']; cbn [length Nat.ltb Nat.leb];
    destruct (written _); reflexivity.
Qed.

End Httplog.

Arguments FString {any} _ _.
Arguments FInt {any} _ _.
Arguments FDuration {any} _ _.
Arguments FObject {any} _ _.
Arguments FReflect {any} _ _.
Arguments NopCore {any}.
Arguments ioCore {any} _.
Arguments mkLogger {any} _ _.
Arguments core {any} _.
Arguments addStack {any} _.
Arguments NewNop {any}.
Arguments mkRecord {any} _ _ _ _.
Arguments Level {any} _.
Arguments Message {any} _.
Arguments Fields {any} _.
Arguments Stacktrace {any} _.
Arguments mkEntry {any} _.
Arguments entry_Logger {any} _.
Arguments mkState {any} _ _.
Arguments heap {any} _.
Arguments sink {any} _.
Arguments UserPanic {any} _.
Arguments RuntimeError {any} _.
Arguments Ok {any A} _.
Arguments Panicked {any A} _.
Arguments Returns {any}.
Arguments Panics {any} _.
Arguments DoWriteHeader {any} _.
Arguments DoWrite {any} _ _.
Arguments DoHeader {any} _.
Arguments DoSetField {any} _ _.
Arguments DoSetFields {any} _.
Arguments DoLog {any} _ _ _.
Arguments DoLogVia {any} _ _ _ _.
Arguments DoEntryPanic {any} _ _.
Arguments field_strings {any} _ _.
Arguments field_ints {any} _ _.
Arguments field_key {any} _.
Arguments httpHeaderLog_MarshalLogObject ToLower {any} _ _.
Arguments httpRequestLog_MarshalLogObject grow ToLower {any} _ _.
Arguments NewLogEntry grow ToLower {any} _ _ _.
Arguments ZapRequestLogger grow ToLower {any} Sprintf_v _ _ _ _ _ _.
Arguments RawLogEntry {any} _ _.
Arguments LogEntrySetField {any} _ _ _ _.
Arguments zapLogEntry_Panic {any} Sprintf_v _ _ _ _.
Arguments mkFormatter {any} _.

(** * The model at concrete inputs *)

Definition ex_bytes (s : string) : list byte := list_byte_of_string s.

(** A logger as [zap.NewProduction] makes it: it writes, and attaches its
    own stack trace from the error level on. *)
Definition ex_logger : Logger string := mkLogger (ioCore []) ErrorLevel.

Definition ex_header : http_Header :=
  [("Cookie", ["a=b"; "c=d"]);
   ("Accept", ["text/html"; "text/plain"; "*/*"]);
   ("X-Empty", []);
   ("Host", ["example.com"])].

Definition ex_request (body : ReadCloser) : Request :=
  mkRequest "POST" false "example.com" "/" "HTTP/1.1" 1 "192.0.2.1:1234" []
    body (mkContext None NoValue).

(** A body that arrives in two chunks and ends. *)
Definition ex_body : ReadCloser :=
  mkReadCloser chunkReader _ (mkChunks [ex_bytes "ab"; ex_bytes "cd"] EOF).

(** A body whose connection breaks after two bytes. *)
Definition ex_body_failing : ReadCloser :=
  mkReadCloser chunkReader _
    (mkChunks [ex_bytes "ab"] (ErrOther "connection reset")).

Definition ex_state : State string := mkState ∅ [].
Definition ex_writer : ResponseWriter := mkResponseWriter [] None [].

(** The handlers of [_example/main.go] for "/" (shortened to "hi"), for
    "/panic" and for "/err", and a handler that does nothing. *)
Definition ex_hello : Handler string :=
  fun _ => ([DoWrite (ex_bytes "hi") 2], Returns).
Definition ex_panic : Handler string :=
  fun _ => ([], Panics (UserPanic "oh no")).
Definition ex_err : Handler string :=
  fun _ => ([DoLog ErrorLevel "err here" []; DoWriteHeader 500;
             DoWrite (ex_bytes "err") 3], Returns).
Definition ex_nothing : Handler string := fun _ => ([], Returns).

Definition ex_entry : zapLogEntry string := mkEntry ex_logger.
Definition ex_ctx : Context := mkContext None (EntryPtr (Some 0)).
Definition ex_heap : gmap loc (zapLogEntry string) := {[ 0 := ex_entry ]}.

Arguments is_WriteHeader {any} _.
Arguments is_Write {any} _.
Arguments sends_status {any} _.
Arguments written {any} _.

(** * The claims at the concrete inputs *)

Lemma C1_witness :
  ReadAll grow_double (rc_state (Body (ex_request ex_body)))
  = (ex_bytes "abcd", None, mkChunks [] EOF)
  /\ exists entry r1 st1 o stk,
       NewLogEntry grow_double ToLower_ascii (mkFormatter ex_logger)
         (ex_request ex_body) ex_state = (entry, r1, st1)
       /\ fst (ReadAll grow_double (rc_state (Body (WithLogEntry r1 entry))))
          = (ex_bytes "abcd", None)
       /\ Body (WithLogEntry r1 entry) = NopCloser (mkBuffer (ex_bytes "abcd"))
       /\ sink st1
          = [mkRecord InfoLevel "Request started" [FObject "httpRequest" o] stk]
       /\ field_strings "body" o = ["abcd"].
Proof.
  split; [reflexivity|].
  destruct (C1_request_body_preserved grow_double grow_double_gt
              ToLower_ascii string (fun s => s) ex_logger (ex_request ex_body)
              ex_state (ex_bytes "abcd") (mkChunks [] EOF) eq_refl)
    as (entry & r1 & st1 & H1 & _ & H3 & H4).
  destruct (H4 [] eq_refl) as (H5 & o & stk & H6 & H7).
  exists entry, r1, st1, o, stk.
  split; [exact H1|]. split; [exact H3|]. split; [exact H5|].
  split; [exact H6 | exact H7].
Defined.

Lemma C2_witness :
  core ex_logger = ioCore []
  /\ exists out w' st3 before complete,
       ZapRequestLogger grow_double ToLower_ascii (fun s => s) ex_logger
         ex_err ex_writer (ex_request ex_body) 7 ex_state = (out, w', st3)
       /\ sink st3 = before ++ [complete]
       /\ Message complete = "Request complete".
Proof.
  split; [reflexivity|].
  destruct (C2_started_then_handler_then_complete grow_double grow_double_gt
              ToLower_ascii string (fun s => s) ex_logger [] ex_err ex_writer
              (ex_request ex_body) 7 ex_state eq_refl)
    as (entry & r1 & st1 & out & ww & st2 & w' & st3 & started & during
        & complete & _ & _ & _ & _ & _ & _ & HZ & Hs & Hm & _).
  exists out, w', st3, (sink st2), complete.
  split; [exact HZ|]. split; [exact Hs | exact Hm].
Defined.


Lemma C4_witness :
  core ex_logger = ioCore []
  /\ ReadAll grow_double (rc_state (Body (ex_request ex_body_failing)))
     = (ex_bytes "ab", Some (ErrOther "connection reset"),
        mkChunks [] (ErrOther "connection reset"))
  /\ exists entry r1 st1 o stk,
       NewLogEntry grow_double ToLower_ascii (mkFormatter ex_logger)
         (ex_request ex_body_failing) ex_state = (entry, r1, st1)
       /\ Body r1 = NopCloser (mkBuffer (ex_bytes "ab"))
       /\ sink st1
          = [mkRecord InfoLevel "Request started" [FObject "httpRequest" o] stk]
       /\ field_strings "body" o = ["ab"].
Proof.
  split; [reflexivity|]. split; [reflexivity|].
  destruct (C4_failed_read_keeps_bytes_read grow_double grow_double_gt
              ToLower_ascii string (fun s => s) ex_logger []
              (ex_request ex_body_failing) ex_state (ex_bytes "ab")
              (ErrOther "connection reset")
              (mkChunks [] (ErrOther "connection reset")) eq_refl eq_refl)
    as (entry & r1 & st1 & o & stk & H1 & H2 & H3 & H4 & _).
  exists entry, r1, st1, o, stk.
  split; [exact H1|]. split; [exact H2|]. split; [exact H3 | exact H4].
Defined.

Lemma C5_witness :
  core ex_logger = ioCore []
  /\ forallb (fun a => negb (is_WriteHeader a))
       (fst (ex_hello (ex_request ex_body))) = true
  /\ exists out w' st' prior fields o stk,
       ZapRequestLogger grow_double ToLower_ascii (fun s => s) ex_logger
         ex_hello ex_writer (ex_request ex_body) 7 ex_state = (out, w', st')
       /\ sink st'
          = prior ++ [mkRecord InfoLevel "Request complete"
                        (fields ++ [FObject "httpResponse" o]) stk]
       /\ field_ints "status" o = [200%Z].
Proof.
  split; [reflexivity|]. split; [reflexivity|].
  exact (C5_status_without_WriteHeader grow_double grow_double_gt
           ToLower_ascii string (fun s => s) ex_logger [] ex_hello ex_writer
           (ex_request ex_body) 7 ex_state eq_refl eq_refl).
Defined.

Lemma C6_witness :
  core ex_logger = ioCore []
  /\ fst (ex_err (ex_request ex_body))
     = [DoLog ErrorLevel "err here" []] ++
       DoWriteHeader 500 :: [DoWrite (ex_bytes "err") 3]
  /\ exists out w' st' prior fields o stk,
       ZapRequestLogger grow_double ToLower_ascii (fun s => s) ex_logger
         ex_err ex_writer (ex_request ex_body) 7 ex_state = (out, w', st')
       /\ rw_sent w' = ex_bytes "err"
       /\ sink st'
          = prior ++ [mkRecord InfoLevel "Request complete"
                        (fields ++ [FObject "httpResponse" o]) stk]
       /\ field_ints "status" o = [500%Z]
       /\ field_ints "bytes" o = [3%Z]
       /\ field_strings "body" o = ["err"].
Proof.
  split; [reflexivity|]. split; [reflexivity|].
  exact (C6_completion_reports_response grow_double grow_double_gt
           ToLower_ascii string (fun s => s) ex_logger [] ex_err ex_writer
           (ex_request ex_body) 7 ex_state [DoLog ErrorLevel "err here" []]
           [DoWrite (ex_bytes "err") 3] 500 eq_refl eq_refl eq_refl).
Defined.

Lemma C7_witness :
  core (entry_Logger ex_entry) = ioCore []
  /\ zapLogEntry_Panic (fun s => s) ex_entry "oh no" (ex_bytes "main.go:24") []
     = [mkRecord ErrorLevel "Panic"
          [FString "panic" "oh no"; FString "stack" "main.go:24"] false].
Proof.
  split; [reflexivity|].
  exact (C7_Panic_record string (fun s => s) ex_entry [] "oh no"
           (ex_bytes "main.go:24") [] eq_refl).
Defined.

Lemma C8_witness :
  ex_header
  = [("Cookie", ["a=b"; "c=d"])] ++
    ("Accept", ["text/html"; "text/plain"; "*/*"]) ::
    [("X-Empty", []); ("Host", ["example.com"])]
  /\ sensitive (ToLower_ascii "Accept") = false
  /\ httpHeaderLog_MarshalLogObject ToLower_ascii (any := string) ex_header []
     = [FString "cookie" "***"] ++
       [FString "accept" "[text/html], [text/plain], [*/*]"] ++
       [FString "host" "example.com"]
  /\ (forall f,
        In f (httpHeaderLog_MarshalLogObject ToLower_ascii (any := string)
                ex_header [])
        /\ field_key f = "accept"
        <-> In f [FString "accept" "[text/html], [text/plain], [*/*]"]).
Proof.
  split; [reflexivity|]. split; [reflexivity|].
  destruct (C8_plain_headers ToLower_ascii string ex_header
              [("Cookie", ["a=b"; "c=d"])]
              [("X-Empty", []); ("Host", ["example.com"])]
              "Accept" ["text/html"; "text/plain"; "*/*"] eq_refl eq_refl)
    as [Hout Honly].
  split; [exact Hout|]. apply Honly.
  apply (bool_decide_unpack _). vm_compute. exact I.
Defined.

Lemma C9_witness :
  RawLogEntry (mkContext None NoValue) ex_heap = Ok NewNop
  /\ LogEntrySetField (mkContext None NoValue) "user" "alice" ex_heap
     = Ok ex_heap.
Proof.
  destruct (C9_retrieval_never_fails string (mkContext None NoValue) ex_heap)
    as ((l & Hl & _ & ->) & _ & _ & Hset).
  - intros p Hp. discriminate Hp.
  - split; [exact Hl|].
    exact (proj1 (Hset (or_introl eq_refl) "user" "alice" [])).
Defined.

Lemma C10_witness :
  ctx_LogEntry ex_ctx = EntryPtr (Some 0)
  /\ ex_heap !! 0 = Some ex_entry
  /\ exists before h1 after,
       RawLogEntry ex_ctx ex_heap = Ok before
       /\ LogEntrySetField ex_ctx "user" "alice" ex_heap = Ok h1
       /\ RawLogEntry ex_ctx h1 = Ok after
       /\ core before = ioCore []
       /\ core after = ioCore [FReflect "user" "alice"].
Proof.
  split; [reflexivity|]. split; [reflexivity|].
  destruct (C10_retrieved_logger_is_a_copy grow_double grow_double_gt
              ToLower_ascii string (fun s => s) ex_ctx 0 ex_heap ex_entry []
              "user" "alice" [] eq_refl eq_refl eq_refl)
    as (before & h1 & after1 & e1 & hN & afterN & H1 & _ & H3 & _ & H5 & _
        & _ & H8 & H9 & _).
  exists before, h1, after1.
  split; [exact H1|]. split; [exact H3|]. split; [exact H5|].
  split; [exact H8 | exact H9].
Defined.

(** C4 as the specification states it fails: the read of this body
    fails after two bytes, and the snapshot has them as its body field. *)
Lemma C4_counterexample :
  ReadAll grow_double (rc_state (Body (ex_request ex_body_failing)))
  = (ex_bytes "ab", Some (ErrOther "connection reset"),
     mkChunks [] (ErrOther "connection reset"))
  /\ fst (httpRequestLog_MarshalLogObject grow_double ToLower_ascii
            (any := string) (ex_request ex_body_failing) [])
     = [FString "method" "POST"; FString "scheme" "http";
        FString "host" "example.com"; FString "requestURI" "/";
        FString "proto" "HTTP/1.1"; FString "remoteAddr" "192.0.2.1:1234";
        FString "body" "ab"].
Proof. split; vm_compute; reflexivity. Qed.

(** C5 as the specification states it fails: this handler never sets a
    status (it makes no call at all), and the completion record reports
    status 0. *)
Lemma C5_counterexample :
  ex_nothing (ex_request ex_body) = ([], Returns)
  /\ let '(out, _, st') :=
       ZapRequestLogger grow_double ToLower_ascii (fun s => s) ex_logger
         ex_nothing ex_writer (ex_request ex_body) 7 ex_state in
     out = Returns
     /\ last (sink st')
        = Some (mkRecord InfoLevel "Request complete"
                  [FObject "httpRequest"
                     [FString "method" "POST"; FString "scheme" "http";
                      FString "host" "example.com"; FString "requestURI" "/";
                      FString "proto" "HTTP/1.1";
                      FString "remoteAddr" "192.0.2.1:1234";
                      FString "body" "abcd"];
                   FObject "httpResponse"
                     [FInt "status" 0; FInt "bytes" 0; FDuration "elapsed" 7]]
                  false).
Proof. split; vm_compute; auto. Qed.

(** C7 as the specification states it fails: this handler panics, the
    panic leaves the middleware as it came, and the sink has the two records
    of the middleware and no "Panic" record. *)
Lemma C7_counterexample :
  ex_panic (ex_request ex_body) = ([], Panics (UserPanic "oh no"))
  /\ let '(out, _, st') :=
       ZapRequestLogger grow_double ToLower_ascii (fun s => s) ex_logger
         ex_panic ex_writer (ex_request ex_body) 7 ex_state in
     out = Panics (UserPanic "oh no")
     /\ map (fun rec => (Level rec, Message rec)) (sink st')
        = [(InfoLevel, "Request started"); (InfoLevel, "Request complete")].
Proof. split; vm_compute; auto. Qed.

Arguments ZapRequestLogger_serving grow ToLower {any} _ _ _ _ _ _.

(** A handler that sets the status and then copies five bytes to the
    writer: [w.WriteHeader(200); io.Copy(w, src)], which on the wrapper of
    an HTTP/1.x connection is [w.ReadFrom(src)]. *)
Definition ex_copy : Serve string :=
  fun ww _ st =>
    let ww := basicWriter_WriteHeader ww 200 in
    let '(_, _, ww, _) :=
      httpFancyWriter_ReadFrom ww (mkChunks [ex_bytes "hello"] EOF) 5 in
    (Returns, ww, st).

(** C6 as the specification states it fails: this handler sets status
    200 and writes the five bytes of "hello", which the client receives and
    the record has as its body, and the completion record reports ten
    bytes. *)
Lemma C6_counterexample :
  let '(out, w', st') :=
    ZapRequestLogger_serving grow_double ToLower_ascii ex_logger ex_copy
      ex_writer (ex_request ex_body) 7 ex_state in
  out = Returns
  /\ rw_status w' = Some 200%Z
  /\ rw_sent w' = ex_bytes "hello"
  /\ last (sink st')
     = Some (mkRecord InfoLevel "Request complete"
               [FObject "httpRequest"
                  [FString "method" "POST"; FString "scheme" "http";
                   FString "host" "example.com"; FString "requestURI" "/";
                   FString "proto" "HTTP/1.1";
                   FString "remoteAddr" "192.0.2.1:1234";
                   FString "body" "abcd"];
                FObject "httpResponse"
                  [FInt "status" 200; FInt "bytes" 10;
                   FDuration "elapsed" 7; FString "body" "hello"]]
               false).
Proof. vm_compute. auto. Qed.

(** * The further properties at concrete inputs *)

Arguments field_objects {any} _ _.
Arguments field_durations {any} _ _.
Arguments LogEntrySetFields {any} _ _ _.
Arguments handler_request grow ToLower {any} _ _ _.
Arguments LogEntry {any} _ _.
Arguments Sugar {any} _.

(** The header map in another order of iteration, and with other values
    under the masked name. *)
Definition ex_header_swapped : http_Header :=
  [("Accept", ["text/html"; "text/plain"; "*/*"]);
   ("Cookie", ["a=b"; "c=d"]);
   ("X-Empty", []);
   ("Host", ["example.com"])].

Definition ex_header_other_cookie : http_Header :=
  [("Cookie", ["session=secret"]);
   ("Accept", ["text/html"; "text/plain"; "*/*"]);
   ("X-Empty", []);
   ("Host", ["example.com"])].

(** A request with headers that have no value, and a request id. *)
Definition ex_request_valueless : Request :=
  mkRequest "GET" true "example.com" "/" "HTTP/2.0" 2 "192.0.2.1:1234"
    [("X-Empty", [])] ex_body (mkContext (Some "req-1") NoValue).

(** What the middleware sees of a handler that panics under chi's
    [Recoverer]. *)
Definition ex_recovered : Handler string :=
  fun _ => ([DoEntryPanic "oh no" (ex_bytes "main.go:24"); DoWriteHeader 500],
            Returns).

Definition ex_noop_entry : zapLogEntry string := mkEntry NewNop.
Definition ex_noop_heap : gmap loc (zapLogEntry string) :=
  {[ 0 := ex_noop_entry ]}.

Lemma X2_witness :
  NoDup (map (fun kv => ToLower_ascii (fst kv)) ex_header)
  /\ NoDup (map field_key
              (httpHeaderLog_MarshalLogObject ToLower_ascii (any := string)
                 ex_header [])).
Proof.
  assert (H : NoDup (map (fun kv => ToLower_ascii (fst kv)) ex_header))
    by (apply (bool_decide_unpack _); vm_compute; exact I).
  split; [exact H|].
  exact (X2_header_keys_distinct ToLower_ascii string ex_header H).
Defined.

Lemma X3_witness :
  Permutation ex_header ex_header_swapped
  /\ Permutation
       (httpHeaderLog_MarshalLogObject ToLower_ascii (any := string)
          ex_header [])
       (httpHeaderLog_MarshalLogObject ToLower_ascii (any := string)
          ex_header_swapped []).
Proof.
  assert (H : Permutation ex_header ex_header_swapped) by apply perm_swap.
  split; [exact H|].
  exact (X3_header_iteration_order ToLower_ascii string ex_header
           ex_header_swapped H).
Defined.

Lemma X4_witness :
  Forall2 (same_shape ToLower_ascii) ex_header ex_header_other_cookie
  /\ httpHeaderLog_MarshalLogObject ToLower_ascii (any := string) ex_header []
     = httpHeaderLog_MarshalLogObject ToLower_ascii (any := string)
         ex_header_other_cookie [].
Proof.
  assert (H : Forall2 (same_shape ToLower_ascii) ex_header
                ex_header_other_cookie).
  { repeat (constructor; [split; [reflexivity|]|]); [| | | |constructor].
    - split; discriminate.
    - reflexivity.
    - reflexivity.
    - reflexivity. }
  split; [exact H|].
  exact (X4_header_masked_values_do_not_flow ToLower_ascii string ex_header
           ex_header_other_cookie H).
Defined.

Lemma X6_witness :
  let o := fst (httpRequestLog_MarshalLogObject grow_double ToLower_ascii
                  (any := string) ex_request_valueless []) in
  NoDup (map field_key o)
  /\ field_strings "method" o = ["GET"]
  /\ field_strings "scheme" o = ["https"]
  /\ field_strings "host" o = ["example.com"]
  /\ field_strings "requestURI" o = ["/"]
  /\ field_strings "proto" o = ["HTTP/2.0"]
  /\ field_strings "remoteAddr" o = ["192.0.2.1:1234"].
Proof.
  exact (X6_request_object_schema grow_double grow_double_gt ToLower_ascii
           string ex_request_valueless).
Defined.

Lemma X7_witness :
  let first := httpRequestLog_MarshalLogObject grow_double ToLower_ascii
                 (any := string) (ex_request ex_body_failing) [] in
  httpRequestLog_MarshalLogObject grow_double ToLower_ascii (snd first) []
  = first.
Proof.
  exact (X7_request_marshaler_idempotent grow_double grow_double_gt
           ToLower_ascii string (ex_request ex_body_failing)).
Defined.

Lemma X8_witness :
  Header ex_request_valueless <> []
  /\ Forall (fun kv => snd kv = []) (Header ex_request_valueless)
  /\ field_objects "header"
       (fst (httpRequestLog_MarshalLogObject grow_double ToLower_ascii
               (any := string) ex_request_valueless [])) = [[]]
  /\ field_strings "reqId"
       (fst (httpRequestLog_MarshalLogObject grow_double ToLower_ascii
               (any := string) ex_request_valueless [])) = ["req-1"].
Proof.
  assert (H1 : Header ex_request_valueless <> []) by discriminate.
  assert (H2 : Forall (fun kv : string * list string => snd kv = [])
                 (Header ex_request_valueless))
    by (repeat constructor).
  destruct (X8_request_object_optional_fields grow_double grow_double_gt
              ToLower_ascii string ex_request_valueless) as (_ & Hh & Hid).
  split; [exact H1|]. split; [exact H2|].
  split; [exact (Hh H1 H2) | exact Hid].
Defined.

Lemma X9_witness :
  In "abcd"
    (field_strings "body"
       (fst (httpRequestLog_MarshalLogObject grow_double ToLower_ascii
               (any := string) (ex_request ex_body) [])))
  /\ Body (snd (httpRequestLog_MarshalLogObject grow_double ToLower_ascii
                  (any := string) (ex_request ex_body) []))
     = NopCloser (mkBuffer (ex_bytes "abcd")).
Proof.
  assert (H : In "abcd"
                (field_strings "body"
                   (fst (httpRequestLog_MarshalLogObject grow_double
                           ToLower_ascii (any := string)
                           (ex_request ex_body) []))))
    by (left; reflexivity).
  split; [exact H|].
  exact (X9_logged_body_is_the_body_left grow_double grow_double_gt
           ToLower_ascii string (ex_request ex_body) "abcd" H).
Defined.

Lemma X12_witness :
  LogEntrySetFields ex_ctx [("user", "alice"); ("plan", "free")] ex_heap
  = Ok (<[0 := mkEntry (mkLogger (ioCore [FReflect "user" "alice";
                                          FReflect "plan" "free"])
                          ErrorLevel)]> ex_heap)
  /\ dom (<[0 := mkEntry (mkLogger (ioCore [FReflect "user" "alice";
                                            FReflect "plan" "free"])
                            ErrorLevel)]> ex_heap)
     = dom ex_heap.
Proof.
  assert (H : LogEntrySetFields ex_ctx [("user", "alice"); ("plan", "free")]
                ex_heap
              = Ok (<[0 := mkEntry (mkLogger (ioCore [FReflect "user" "alice";
                                                      FReflect "plan" "free"])
                                      ErrorLevel)]> ex_heap))
    by (vm_compute; reflexivity).
  split; [exact H|].
  exact (proj1 (X12_setters_touch_only_the_entry string ex_ctx _ _ _ H)).
Defined.

Lemma X13_witness :
  ctx_LogEntry ex_ctx = EntryPtr (Some 0)
  /\ ex_noop_heap !! 0 = Some ex_noop_entry
  /\ core (entry_Logger ex_noop_entry) = NopCore
  /\ LogEntrySetField ex_ctx "user" "alice" ex_noop_heap = Ok ex_noop_heap
  /\ LogEntrySetFields ex_ctx [("plan", "free")] ex_noop_heap = Ok ex_noop_heap.
Proof.
  split; [reflexivity|]. split; [reflexivity|]. split; [reflexivity|].
  exact (X13_setters_on_noop_entry string ex_ctx 0 ex_noop_heap ex_noop_entry
           "user" "alice" [("plan", "free")] eq_refl eq_refl eq_refl).
Defined.

Lemma X14_witness :
  core (NewNop (any := string)) = NopCore
  /\ Body (handler_request grow_double ToLower_ascii NewNop
             (ex_request ex_body) ex_state) = ex_body
  /\ sink (snd (ZapRequestLogger grow_double ToLower_ascii (fun s => s) NewNop
                  ex_err ex_writer (ex_request ex_body) 7 ex_state)) = [].
Proof.
  split; [reflexivity|].
  destruct (X14_noop_logger_is_silent grow_double grow_double_gt ToLower_ascii
              string (fun s => s) NewNop ex_err ex_writer (ex_request ex_body)
              7 ex_state eq_refl) as (Hb & _ & Hs).
  split; [exact Hb | exact (Hs eq_refl)].
Defined.

Lemma X15_witness :
  let '(out, w', _) :=
    ZapRequestLogger grow_double ToLower_ascii (fun s => s) ex_logger ex_panic
      ex_writer (ex_request ex_body) 7 ex_state in
  out = snd (ex_panic (handler_request grow_double ToLower_ascii ex_logger
                         (ex_request ex_body) ex_state))
  /\ rw_sent w'
     = rw_sent ex_writer
       ++ written (fst (ex_panic (handler_request grow_double ToLower_ascii
                                    ex_logger (ex_request ex_body) ex_state))).
Proof.
  exact (X15_middleware_transparent grow_double grow_double_gt ToLower_ascii
           string (fun s => s) ex_logger ex_panic ex_writer
           (ex_request ex_body) 7 ex_state).
Defined.

Lemma X16_witness :
  let st' := snd (ZapRequestLogger grow_double ToLower_ascii (fun s => s)
                    ex_logger ex_hello ex_writer (ex_request ex_body) 7
                    (mkState ex_heap [])) in
  let p := fresh (dom ex_heap) in
  ex_heap !! p = None
  /\ (exists e, heap st' = <[p := e]> ex_heap)
  /\ (forall q e, ex_heap !! q = Some e -> heap st' !! q = Some e).
Proof.
  exact (X16_one_fresh_entry_per_request grow_double grow_double_gt
           ToLower_ascii string (fun s => s) ex_logger ex_hello ex_writer
           (ex_request ex_body) 7 (mkState ex_heap [])).
Defined.

Lemma X17_witness :
  core ex_logger = ioCore []
  /\ exists started during complete,
       sink (snd (ZapRequestLogger grow_double ToLower_ascii (fun s => s)
                    ex_logger ex_err ex_writer (ex_request ex_body) 7
                    ex_state))
       = sink ex_state ++ started :: during ++ [complete]
       /\ Message started = "Request started"
       /\ Message complete = "Request complete"
       /\ (exists o, In (FObject "httpRequest" o) (Fields started))
       /\ Forall (fun rec => exists more, Fields rec = Fields started ++ more)
            (during ++ [complete]).
Proof.
  split; [reflexivity|].
  exact (X17_records_share_the_snapshot grow_double grow_double_gt
           ToLower_ascii string (fun s => s) ex_logger [] ex_err ex_writer
           (ex_request ex_body) 7 ex_state eq_refl eq_refl).
Defined.

Lemma X18_witness :
  exists l,
    RawLogEntry
      (Ctx (handler_request grow_double ToLower_ascii ex_logger
              ex_request_valueless ex_state))
      (heap (snd (NewLogEntry grow_double ToLower_ascii (mkFormatter ex_logger)
                    ex_request_valueless ex_state))) = Ok l
    /\ addStack l = ErrorLevel
    /\ GetReqID (Ctx (handler_request grow_double ToLower_ascii ex_logger
                        ex_request_valueless ex_state)) = "req-1".
Proof.
  destruct (X18_handler_retrieves_request_logger grow_double grow_double_gt
              ToLower_ascii string ex_logger ex_request_valueless ex_state)
    as (l & H1 & _ & H3 & _ & H5).
  exists l. split; [exact H1|]. split; [exact H3 | exact H5].
Defined.

Lemma X19_witness :
  core ex_logger = ioCore []
  /\ exists before fields o stk,
       sink (snd (ZapRequestLogger grow_double ToLower_ascii (fun s => s)
                    ex_logger ex_recovered ex_writer (ex_request ex_body) 7
                    ex_state))
       = before ++
         [mkRecord ErrorLevel "Panic"
            (fields ++ [FString "panic" "oh no";
                        FString "stack" "main.go:24"]) false;
          mkRecord InfoLevel "Request complete"
            (fields ++ [FObject "httpResponse" o]) stk]
       /\ field_ints "status" o = [500%Z].
Proof.
  split; [reflexivity|].
  exact (X19_recovered_panic_then_complete grow_double grow_double_gt
           ToLower_ascii string (fun s => s) ex_logger [] ex_recovered
           ex_writer (ex_request ex_body) 7 ex_state []
           "oh no" (ex_bytes "main.go:24") eq_refl eq_refl eq_refl).
Defined.

(** A handler that sets a header, logs, writes, and calls [WriteHeader]
    only after it has written. *)
Definition ex_info : Handler string :=
  fun _ => ([DoHeader [("Content-Type", ["text/plain"])];
             DoLog InfoLevel "info here" [];
             DoWrite (ex_bytes "info here") 9;
             DoWriteHeader 404], Returns).

Lemma X20_witness :
  core ex_logger = ioCore []
  /\ exists before fields o stk,
       sink (snd (ZapRequestLogger grow_double ToLower_ascii (fun s => s)
                    ex_logger ex_info ex_writer (ex_request ex_body) 7
                    ex_state))
       = before ++ [mkRecord InfoLevel "Request complete"
                      (fields ++ [FObject "httpResponse" o]) stk]
       /\ field_ints "status" o = [200%Z]
       /\ field_ints "bytes" o = [9%Z]
       /\ field_strings "body" o = ["info here"]
       /\ field_durations "elapsed" o = [7%Z].
Proof.
  split; [reflexivity|].
  exact (X20_completion_for_every_handler grow_double grow_double_gt
           ToLower_ascii string (fun s => s) ex_logger [] ex_info ex_writer
           (ex_request ex_body) 7 ex_state eq_refl).
Defined.

Lemma X21_witness :
  core ex_logger = ioCore []
  /\ exists before fields o stk,
       sink (snd (ZapRequestLogger grow_double ToLower_ascii (fun s => s)
                    ex_logger ex_info ex_writer (ex_request ex_body) 7
                    ex_state))
       = before ++ [mkRecord InfoLevel "Request complete"
                      (fields ++ [FObject "httpResponse" o]) stk]
       /\ field_objects "header" o = [[FString "content-type" "text/plain"]].
Proof.
  split; [reflexivity|].
  exact (X21_completion_logs_final_headers grow_double grow_double_gt
           ToLower_ascii string (fun s => s) ex_logger [] ex_info ex_writer
           (ex_request ex_body) 7 ex_state eq_refl).
Defined.
